(** * Chat UI controller (static/app.js): request lifecycle and view state

    A shallow embedding of the browser-side controller of [static/app.js]:
    the classes [ChatMessage], [TypingIndicator], [ErrorMessage] and
    [ChatUI] become modules of the same names; the page they mutate (the
    bound [DOMElements], the conversation history, pending timers, the
    console and the requests in flight) is one record threaded through a
    small state-and-exception monad that carries JavaScript's
    [try]/[catch]/[finally].

    An [async] method is cut at its [await]: [handleFormSubmit] is the
    part that runs when the form is submitted, up to the request leaving,
    and [handleFormSubmit_settled] the part that runs when the exchange
    with the backend has settled.  Between the two, other events of the
    page (timers, the host changing the document) may take place; [step]
    lists them.

    Left out: keyboard focus ([focusInput]), [event.preventDefault()],
    and the visual styling.  The elements bound by [DOMElements] are
    taken to exist, except the welcome panel, which the code itself
    allows to be missing; [".chat-main"] is looked up anew by every
    [scrollToBottom], so the page records whether the document has it. *)

From Stdlib Require Import NArith Lia.
From stdpp Require Import base option list strings gmap.

Local Open Scope N_scope.

(** ** JavaScript strings and values *)

(** A JavaScript string is a sequence of UTF-16 code units. *)
Abbreviation jstring := (list N).

(** Literals of the source, written as Rocq strings. *)
Definition js (s : string) : jstring :=
  map Ascii.N_of_ascii (String.list_ascii_of_string s).

Definition LF : N := 10.
Definition QUOTE : N := 34.
Definition AMP : N := 38.
Definition LT : N := 60.
Definition GT : N := 62.
Definition NBSP : N := 160.

(** [WhiteSpace] and [LineTerminator] of ECMAScript, the code units that
    [String.prototype.trim] strips. *)
Definition is_whitespace (c : N) : bool :=
  (c =? 9) || (c =? 10) || (c =? 11) || (c =? 12) || (c =? 13) || (c =? 32)
  || (c =? 160) || (c =? 5760) || ((8192 <=? c) && (c <=? 8202))
  || (c =? 8232) || (c =? 8233) || (c =? 8239) || (c =? 8287)
  || (c =? 12288) || (c =? 65279).

Fixpoint trimStart (s : jstring) : jstring :=
  match s with
  | c :: rest => if is_whitespace c then trimStart rest else s
  | [] => []
  end.

Definition trimEnd (s : jstring) : jstring := rev (trimStart (rev s)).

Definition trim (s : jstring) : jstring := trimEnd (trimStart s).

(** The values the controller handles: a field read from a parsed JSON
    body.  A boolean, number, array or object is kept as what the code can
    observe of it: its truthiness (for [||]) and its [ToString] text.
    [VOther] therefore stands for the values whose conversion to a string
    succeeds; an object whose [toString] and [valueOf] give no primitive,
    for which the conversion throws, has no value here, and the theorems
    that speak of what an entry shows are stated for strings. *)
Inductive jsval :=
| VUndefined
| VNull
| VString (s : jstring)
| VOther (truthy : bool) (text : jstring).

(** [ToBoolean]. *)
Definition truthy_val (v : jsval) : bool :=
  match v with
  | VUndefined | VNull => false
  | VString s => negb (bool_decide (s = []))
  | VOther t _ => t
  end.

(** [ToString]. *)
Definition to_string (v : jsval) : jstring :=
  match v with
  | VUndefined => js "undefined"
  | VNull => js "null"
  | VString s => s
  | VOther _ t => t
  end.

(** Conversion to the nullable [DOMString?] of the [textContent] setter:
    [null] and [undefined] become null, which the setter treats as the
    empty string; a [VOther] gives its [ToString] text, which exists for
    the values that constructor holds. *)
Definition to_text_content (v : jsval) : jstring :=
  match v with
  | VUndefined | VNull => []
  | VString s => s
  | VOther _ t => t
  end.

(** The result of [response.json()] when the body parses. *)
Inductive json_data :=
| DNull
| DObject (fields : gmap (list N) jsval)
| DScalar.

Inductive error :=
| TypeError
| SyntaxError
| FetchRejected (reason : jstring)
| Error (message : jstring).

(** [data.key]: throws on [null], [undefined] for an absent key. *)
Definition get_field (data : json_data) (key : jstring) : error + jsval :=
  match data with
  | DNull => inl TypeError
  | DObject fields => inr (default VUndefined (fields !! key))
  | DScalar => inr VUndefined
  end.

(** ** Serialising and reading back text *)

(** [div.innerHTML] of a [div] whose only child is a text node: the HTML
    fragment serialisation escapes [&], U+00A0, [<] and [>]. *)
Definition escape_unit (c : N) : jstring :=
  if c =? AMP then js "&amp;"
  else if c =? NBSP then js "&nbsp;"
  else if c =? LT then js "&lt;"
  else if c =? GT then js "&gt;"
  else [c].

Definition serialize_text (s : jstring) : jstring := flat_map escape_unit s.

(** [s.replace(/\n/g, "<br>")]. *)
Definition replace_newlines (s : jstring) : jstring :=
  flat_map (fun c => if c =? LF then js "<br>" else [c]) s.

(** Decoding the escaped form, unit by unit: a character of text, a line
    break, or the start of some other construct (a tag, a comment, another
    character reference).  This is the inverse of the escaping, used to
    show that the escaping loses nothing; what the browser reads from the
    markup of an entry is [parse_fragment] below. *)
Inductive token :=
| Chr (c : N)
| LineBreak
| Interpreted (c : N).

Definition starts_with (p s : jstring) : bool :=
  bool_decide (take (length p) s = p).

(** The tokenizer skips the [skip] code units that belong to a construct
    it has already recognised. *)
Fixpoint tokenize_from (skip : nat) (s : jstring) : list token :=
  match s with
  | [] => []
  | c :: rest =>
    match skip with
    | S k => tokenize_from k rest
    | O =>
      if c =? LT then
        if starts_with (js "br>") rest then LineBreak :: tokenize_from 3 rest
        else Interpreted c :: tokenize_from 0 rest
      else if c =? AMP then
        if starts_with (js "amp;") rest then Chr AMP :: tokenize_from 4 rest
        else if starts_with (js "lt;") rest then Chr LT :: tokenize_from 3 rest
        else if starts_with (js "gt;") rest then Chr GT :: tokenize_from 3 rest
        else if starts_with (js "nbsp;") rest then Chr NBSP :: tokenize_from 5 rest
        else Interpreted c :: tokenize_from 0 rest
      else Chr c :: tokenize_from 0 rest
    end
  end.

Definition tokenize (s : jstring) : list token := tokenize_from 0 s.

(** The text a message content stands for: its code units, with a line
    break for every newline. *)
Definition literal (c : N) : token := if c =? LF then LineBreak else Chr c.

(** ** The page *)

Inductive content :=
| InnerHTML (html : jstring)
| TextContent (text : jstring).

(** An element created by the controller.  [uid] tells the objects apart
    (every [createElement] yields a new one), [id_attr] is the [id]
    attribute.  The code never changes an element once it is in the list,
    so a reference to it is the record itself. *)
Record element := {
  uid : nat;
  className : jstring;
  id_attr : jstring;
  body : content
}.

#[global] Instance content_eq_dec : EqDecision content.
Proof. solve_decision. Defined.

#[global] Instance element_eq_dec : EqDecision element.
Proof. solve_decision. Defined.

(** The element matched by [".chat-main"], when the document has one. *)
Record scroller := {
  sc_uid : nat;
  scrollTop : N;
  scrollHeight : N;
  clientHeight : N
}.

(** The two closures handed to [setTimeout]. *)
Inductive callback :=
| RemoveElement (errorElement : element)
| ScrollDown (chatMain : option nat).

Record timer := { due : N; action : callback }.

Record history_entry := {
  question : jstring;
  answer : jsval;
  timestamp : N
}.

(** A call of [fetch]: [JSON.stringify({question})] posted to [url]. *)
Record request := {
  url : jstring;
  method : jstring;
  contentType : jstring;
  asked : jstring
}.

(** [DOMElements] with the state of each bound element, the fields of
    [ChatUI], and the environment the code talks to.  [input_height] is
    [None] for ["auto"]; [welcomeScreen] is [None] when the page has no
    welcome panel, otherwise its [style.display]. *)
Record page := {
  input_value : jstring;
  input_height : option N;
  input_disabled : bool;
  submit_disabled : bool;
  btnIcon_display : jstring;
  spinner_display : jstring;
  welcomeScreen : option jstring;
  chatMessages : list element;
  chatMain : option scroller;
  conversationHistory : list history_entry;
  console : list error;
  timers : list timer;
  inflight : list request;
  uncaught : list error;
  now : N;
  next_uid : nat
}.

Definition set_input_value (v : jstring) (p : page) : page :=
  {| input_value := v; input_height := input_height p;
     input_disabled := input_disabled p;
     submit_disabled := submit_disabled p;
     btnIcon_display := btnIcon_display p;
     spinner_display := spinner_display p;
     welcomeScreen := welcomeScreen p; chatMessages := chatMessages p;
     chatMain := chatMain p;
     conversationHistory := conversationHistory p; console := console p;
     timers := timers p; inflight := inflight p; uncaught := uncaught p;
     now := now p; next_uid := next_uid p |}.

Definition set_input_height (v : option N) (p : page) : page :=
  {| input_value := input_value p; input_height := v;
     input_disabled := input_disabled p;
     submit_disabled := submit_disabled p;
     btnIcon_display := btnIcon_display p;
     spinner_display := spinner_display p;
     welcomeScreen := welcomeScreen p; chatMessages := chatMessages p;
     chatMain := chatMain p;
     conversationHistory := conversationHistory p; console := console p;
     timers := timers p; inflight := inflight p; uncaught := uncaught p;
     now := now p; next_uid := next_uid p |}.

Definition set_input_disabled (v : bool) (p : page) : page :=
  {| input_value := input_value p; input_height := input_height p;
     input_disabled := v; submit_disabled := submit_disabled p;
     btnIcon_display := btnIcon_display p;
     spinner_display := spinner_display p;
     welcomeScreen := welcomeScreen p; chatMessages := chatMessages p;
     chatMain := chatMain p;
     conversationHistory := conversationHistory p; console := console p;
     timers := timers p; inflight := inflight p; uncaught := uncaught p;
     now := now p; next_uid := next_uid p |}.

Definition set_submit_disabled (v : bool) (p : page) : page :=
  {| input_value := input_value p; input_height := input_height p;
     input_disabled := input_disabled p; submit_disabled := v;
     btnIcon_display := btnIcon_display p;
     spinner_display := spinner_display p;
     welcomeScreen := welcomeScreen p; chatMessages := chatMessages p;
     chatMain := chatMain p;
     conversationHistory := conversationHistory p; console := console p;
     timers := timers p; inflight := inflight p; uncaught := uncaught p;
     now := now p; next_uid := next_uid p |}.

Definition set_btnIcon_display (v : jstring) (p : page) : page :=
  {| input_value := input_value p; input_height := input_height p;
     input_disabled := input_disabled p;
     submit_disabled := submit_disabled p; btnIcon_display := v;
     spinner_display := spinner_display p;
     welcomeScreen := welcomeScreen p; chatMessages := chatMessages p;
     chatMain := chatMain p;
     conversationHistory := conversationHistory p; console := console p;
     timers := timers p; inflight := inflight p; uncaught := uncaught p;
     now := now p; next_uid := next_uid p |}.

Definition set_spinner_display (v : jstring) (p : page) : page :=
  {| input_value := input_value p; input_height := input_height p;
     input_disabled := input_disabled p;
     submit_disabled := submit_disabled p;
     btnIcon_display := btnIcon_display p; spinner_display := v;
     welcomeScreen := welcomeScreen p; chatMessages := chatMessages p;
     chatMain := chatMain p;
     conversationHistory := conversationHistory p; console := console p;
     timers := timers p; inflight := inflight p; uncaught := uncaught p;
     now := now p; next_uid := next_uid p |}.

Definition set_welcomeScreen (v : option jstring) (p : page) : page :=
  {| input_value := input_value p; input_height := input_height p;
     input_disabled := input_disabled p;
     submit_disabled := submit_disabled p;
     btnIcon_display := btnIcon_display p;
     spinner_display := spinner_display p; welcomeScreen := v;
     chatMessages := chatMessages p; chatMain := chatMain p;
     conversationHistory := conversationHistory p; console := console p;
     timers := timers p; inflight := inflight p; uncaught := uncaught p;
     now := now p; next_uid := next_uid p |}.

Definition set_chatMessages (v : list element) (p : page) : page :=
  {| input_value := input_value p; input_height := input_height p;
     input_disabled := input_disabled p;
     submit_disabled := submit_disabled p;
     btnIcon_display := btnIcon_display p;
     spinner_display := spinner_display p;
     welcomeScreen := welcomeScreen p; chatMessages := v;
     chatMain := chatMain p;
     conversationHistory := conversationHistory p; console := console p;
     timers := timers p; inflight := inflight p; uncaught := uncaught p;
     now := now p; next_uid := next_uid p |}.

Definition set_chatMain (v : option scroller) (p : page) : page :=
  {| input_value := input_value p; input_height := input_height p;
     input_disabled := input_disabled p;
     submit_disabled := submit_disabled p;
     btnIcon_display := btnIcon_display p;
     spinner_display := spinner_display p;
     welcomeScreen := welcomeScreen p; chatMessages := chatMessages p;
     chatMain := v; conversationHistory := conversationHistory p;
     console := console p; timers := timers p; inflight := inflight p;
     uncaught := uncaught p; now := now p; next_uid := next_uid p |}.

Definition set_conversationHistory (v : list history_entry) (p : page) : page :=
  {| input_value := input_value p; input_height := input_height p;
     input_disabled := input_disabled p;
     submit_disabled := submit_disabled p;
     btnIcon_display := btnIcon_display p;
     spinner_display := spinner_display p;
     welcomeScreen := welcomeScreen p; chatMessages := chatMessages p;
     chatMain := chatMain p; conversationHistory := v;
     console := console p; timers := timers p; inflight := inflight p;
     uncaught := uncaught p; now := now p; next_uid := next_uid p |}.

Definition set_console (v : list error) (p : page) : page :=
  {| input_value := input_value p; input_height := input_height p;
     input_disabled := input_disabled p;
     submit_disabled := submit_disabled p;
     btnIcon_display := btnIcon_display p;
     spinner_display := spinner_display p;
     welcomeScreen := welcomeScreen p; chatMessages := chatMessages p;
     chatMain := chatMain p;
     conversationHistory := conversationHistory p; console := v;
     timers := timers p; inflight := inflight p; uncaught := uncaught p;
     now := now p; next_uid := next_uid p |}.

Definition set_timers (v : list timer) (p : page) : page :=
  {| input_value := input_value p; input_height := input_height p;
     input_disabled := input_disabled p;
     submit_disabled := submit_disabled p;
     btnIcon_display := btnIcon_display p;
     spinner_display := spinner_display p;
     welcomeScreen := welcomeScreen p; chatMessages := chatMessages p;
     chatMain := chatMain p;
     conversationHistory := conversationHistory p; console := console p;
     timers := v; inflight := inflight p; uncaught := uncaught p;
     now := now p; next_uid := next_uid p |}.

Definition set_inflight (v : list request) (p : page) : page :=
  {| input_value := input_value p; input_height := input_height p;
     input_disabled := input_disabled p;
     submit_disabled := submit_disabled p;
     btnIcon_display := btnIcon_display p;
     spinner_display := spinner_display p;
     welcomeScreen := welcomeScreen p; chatMessages := chatMessages p;
     chatMain := chatMain p;
     conversationHistory := conversationHistory p; console := console p;
     timers := timers p; inflight := v; uncaught := uncaught p;
     now := now p; next_uid := next_uid p |}.

Definition set_uncaught (v : list error) (p : page) : page :=
  {| input_value := input_value p; input_height := input_height p;
     input_disabled := input_disabled p;
     submit_disabled := submit_disabled p;
     btnIcon_display := btnIcon_display p;
     spinner_display := spinner_display p;
     welcomeScreen := welcomeScreen p; chatMessages := chatMessages p;
     chatMain := chatMain p;
     conversationHistory := conversationHistory p; console := console p;
     timers := timers p; inflight := inflight p; uncaught := v;
     now := now p; next_uid := next_uid p |}.

Definition set_now (v : N) (p : page) : page :=
  {| input_value := input_value p; input_height := input_height p;
     input_disabled := input_disabled p;
     submit_disabled := submit_disabled p;
     btnIcon_display := btnIcon_display p;
     spinner_display := spinner_display p;
     welcomeScreen := welcomeScreen p; chatMessages := chatMessages p;
     chatMain := chatMain p;
     conversationHistory := conversationHistory p; console := console p;
     timers := timers p; inflight := inflight p; uncaught := uncaught p;
     now := v; next_uid := next_uid p |}.

Definition set_next_uid (v : nat) (p : page) : page :=
  {| input_value := input_value p; input_height := input_height p;
     input_disabled := input_disabled p;
     submit_disabled := submit_disabled p;
     btnIcon_display := btnIcon_display p;
     spinner_display := spinner_display p;
     welcomeScreen := welcomeScreen p; chatMessages := chatMessages p;
     chatMain := chatMain p;
     conversationHistory := conversationHistory p; console := console p;
     timers := timers p; inflight := inflight p; uncaught := uncaught p;
     now := now p; next_uid := v |}.

(** ** Statements: state passing with exceptions *)

Inductive completion (A : Type) :=
| Normal (a : A)
| Throw (e : error).
Arguments Normal {A} a.
Arguments Throw {A} e.

Definition M (A : Type) : Type := page -> completion A * page.

Definition ret {A} (a : A) : M A := fun p => (Normal a, p).

Definition throw {A} (e : error) : M A := fun p => (Throw e, p).

Definition bind {A B} (m : M A) (k : A -> M B) : M B :=
  fun p =>
    match m p with
    | (Normal a, p1) => k a p1
    | (Throw e, p1) => (Throw e, p1)
    end.

Notation "x <- m ;; k" := (bind m (fun x => k))
  (at level 100, m at next level, k at level 200, right associativity).

Definition gets {A} (f : page -> A) : M A := fun p => (Normal (f p), p).

Definition modify (f : page -> page) : M unit := fun p => (Normal tt, f p).

Definition lift_result {A} (r : error + A) : M A :=
  match r with
  | inl e => throw e
  | inr a => ret a
  end.

(** [try { body } catch (error) { handler(error) } finally { cleanup }]:
    the cleanup runs after either block, however that block completed; a
    throw of the cleanup replaces the completion. *)
Definition try_catch_finally {A} (body : M A) (handler : error -> M A)
    (cleanup : M unit) : M A :=
  fun p =>
    let '(r, p1) := body p in
    let '(r', p2) :=
      match r with
      | Normal a => (Normal a, p1)
      | Throw e => handler e p1
      end in
    match cleanup p2 with
    | (Normal _, p3) => (r', p3)
    | (Throw e, p3) => (Throw e, p3)
    end.

Definition try_catch {A} (body : M A) (handler : error -> M A) : M A :=
  try_catch_finally body handler (ret tt).

(** ** Browser operations used by the code *)

(** [document.createElement("div")]: a fresh object. *)
Definition createElement : M nat :=
  fun p => (Normal (next_uid p), set_next_uid (S (next_uid p)) p).

(** [this.domElements.chatMessages.appendChild(el)]. *)
Definition appendChild (el : element) : M unit :=
  modify (fun p => set_chatMessages (chatMessages p ++ [el]) p).

(** [setTimeout(callback, delay)]. *)
Definition setTimeout (cb : callback) (delay : N) : M unit :=
  modify (fun p =>
    set_timers (timers p ++ [{| due := now p + delay; action := cb |}]) p).

(** [console.error("Error:", error)]. *)
Definition console_error (e : error) : M unit :=
  modify (fun p => set_console (console p ++ [e]) p).

(** [el.remove()] for a child of the message list: nothing happens when
    the element is not there (its parent is null). *)
Fixpoint remove_child (el : element) (l : list element) : list element :=
  match l with
  | [] => []
  | x :: rest =>
    if bool_decide (x = el) then rest else x :: remove_child el rest
  end.

(** [document.getElementById(id)] within the message list: the first
    element in tree order. *)
Definition getElementById (i : jstring) (l : list element) : option element :=
  List.find (fun el => bool_decide (id_attr el = i)) l.

(** [document.querySelector(".chat-main")]. *)
Definition querySelector_chatMain : M (option nat) :=
  gets (fun p => sc_uid <$> chatMain p).

(** [chatMain.scrollTop = chatMain.scrollHeight] on the object [u]: the
    position is clamped to the scrollable range; a write to an object that
    is no longer in the document does not show in the page. *)
Definition scroll_to_end (u : nat) (p : page) : page :=
  match chatMain p with
  | Some c =>
    if Nat.eqb (sc_uid c) u then
      set_chatMain (Some {| sc_uid := sc_uid c;
                            scrollTop := scrollHeight c - clientHeight c;
                            scrollHeight := scrollHeight c;
                            clientHeight := clientHeight c |}) p
    else p
  | None => p
  end.

(** Running a timer's closure. *)
Definition run_callback (cb : callback) : M unit :=
  match cb with
  | RemoveElement el =>
    modify (fun p => set_chatMessages (remove_child el (chatMessages p)) p)
  | ScrollDown None => throw TypeError
  | ScrollDown (Some u) => modify (scroll_to_end u)
  end.

(** ** class ChatMessage *)

Module ChatMessage.

Record t := {
  content : jsval;
  sender : jstring;
  timestamp : N
}.

Definition new (content : jsval) (sender : jstring) : M t :=
  fun p => (Normal {| content := content; sender := sender;
                      timestamp := now p |}, p).

Definition getSenderLabel (this : t) : jstring :=
  if bool_decide (sender this = js "user") then js "You"
  else js "AI CHAT BOT".

Definition escapeHtml (this : t) : M jstring :=
  _ <- createElement ;;
  ret (replace_newlines (serialize_text (to_text_content (content this)))).

(** The template literal assigned to [messageDiv.innerHTML]. *)
Definition template (label html : jstring) : jstring :=
  [LF] ++ js "      <div>" ++ [LF]
  ++ js "        <div class=" ++ [QUOTE] ++ js "message-label" ++ [QUOTE]
  ++ js ">" ++ label ++ js "</div>" ++ [LF]
  ++ js "        <div class=" ++ [QUOTE] ++ js "message-content" ++ [QUOTE]
  ++ js ">" ++ html ++ js "</div>" ++ [LF]
  ++ js "      </div>" ++ [LF] ++ js "    ".

Definition getElement (this : t) : M element :=
  messageDiv <- createElement ;;
  html <- escapeHtml this ;;
  ret {| uid := messageDiv;
         className := js "message message-" ++ sender this;
         id_attr := [];
         body := InnerHTML (template (getSenderLabel this) html) |}.

End ChatMessage.

(** ** class TypingIndicator *)

Module TypingIndicator.

Definition markup : jstring :=
  [LF] ++ js "      <div>" ++ [LF]
  ++ js "        <div class=" ++ [QUOTE] ++ js "message-label" ++ [QUOTE]
  ++ js ">AI CHAT BOT</div>" ++ [LF]
  ++ js "        <div class=" ++ [QUOTE] ++ js "message-content" ++ [QUOTE]
  ++ js ">" ++ [LF]
  ++ js "          <div class=" ++ [QUOTE] ++ js "typing-indicator"
  ++ [QUOTE] ++ js ">" ++ [LF]
  ++ js "            <div class=" ++ [QUOTE] ++ js "typing-dot" ++ [QUOTE]
  ++ js "></div>" ++ [LF]
  ++ js "            <div class=" ++ [QUOTE] ++ js "typing-dot" ++ [QUOTE]
  ++ js "></div>" ++ [LF]
  ++ js "            <div class=" ++ [QUOTE] ++ js "typing-dot" ++ [QUOTE]
  ++ js "></div>" ++ [LF]
  ++ js "          </div>" ++ [LF]
  ++ js "        </div>" ++ [LF]
  ++ js "      </div>" ++ [LF] ++ js "    ".

Definition create : M element :=
  typingDiv <- createElement ;;
  ret {| uid := typingDiv;
         className := js "message message-ai";
         id_attr := js "typingIndicator";
         body := InnerHTML markup |}.

Definition remove : M unit :=
  typingIndicator <- gets (fun p =>
    getElementById (js "typingIndicator") (chatMessages p)) ;;
  match typingIndicator with
  | Some el =>
    modify (fun p => set_chatMessages (remove_child el (chatMessages p)) p)
  | None => ret tt
  end.

End TypingIndicator.

(** ** class ErrorMessage *)

Module ErrorMessage.

Record t := {
  message : jstring;
  duration : N
}.

Definition new (message : jstring) : t :=
  {| message := message; duration := 5000 |}.

Definition create (this : t) : M element :=
  errorDiv <- createElement ;;
  ret {| uid := errorDiv;
         className := js "error-message";
         id_attr := [];
         body := TextContent (message this) |}.

Definition display (this : t) : M unit :=
  errorElement <- create this ;;
  _ <- appendChild errorElement ;;
  setTimeout (RemoveElement errorElement) (duration this).

End ErrorMessage.

(** ** class ChatUI *)

Module ChatUI.

Definition apiUrl : jstring := js "/api/ask".

(** How the exchange with the backend ended: [fetch] rejected, or a
    response arrived with [response.ok] and a body that parses as JSON
    ([Some]) or does not ([None]). *)
Inductive outcome :=
| Rejected (reason : jstring)
| Responded (ok : bool) (json : option json_data).

Definition autoResizeInput (measured : N) : M unit :=
  _ <- modify (set_input_height None) ;;
  modify (set_input_height (Some measured)).

Definition hideWelcomeScreen : M unit :=
  modify (fun p =>
    match welcomeScreen p with
    | Some _ => set_welcomeScreen (Some (js "none")) p
    | None => p
    end).

Definition scrollToBottom : M unit :=
  chatMain <- querySelector_chatMain ;;
  setTimeout (ScrollDown chatMain) 100.

Definition addMessage (chatMessage : ChatMessage.t) : M unit :=
  el <- ChatMessage.getElement chatMessage ;;
  _ <- appendChild el ;;
  scrollToBottom.

Definition clearInput : M unit :=
  _ <- modify (set_input_value []) ;;
  modify (set_input_height None).

Definition setLoadingState (isLoading : bool) : M unit :=
  _ <- modify (set_submit_disabled isLoading) ;;
  _ <- modify (set_input_disabled isLoading) ;;
  if isLoading then
    _ <- modify (set_btnIcon_display (js "none")) ;;
    modify (set_spinner_display (js "block"))
  else
    _ <- modify (set_btnIcon_display (js "block")) ;;
    modify (set_spinner_display (js "none")).

(** [fetch(this.apiUrl, {...})] up to its [await]: the request leaves. *)
Definition fetch (question : jstring) : M unit :=
  modify (fun p =>
    set_inflight (inflight p ++ [{| url := apiUrl; method := js "POST";
                                    contentType := js "application/json";
                                    asked := question |}]) p).

(** [fetchAnswer] up to its first [await]. *)
Definition fetchAnswer (question : jstring) : M unit := fetch question.

(** [await response.json()]. *)
Definition response_json (json : option json_data) : M json_data :=
  match json with
  | Some data => ret data
  | None => throw SyntaxError
  end.

(** [fetchAnswer] from the point where the awaited [fetch] settles. *)
Definition fetchAnswer_settled (o : outcome) : M json_data :=
  match o with
  | Rejected reason => throw (FetchRejected reason)
  | Responded ok json =>
    if negb ok then
      data <- response_json json ;;
      err <- lift_result (get_field data (js "error")) ;;
      throw (Error (if truthy_val err then to_string err
                    else js "Failed to get answer"))
    else response_json json
  end.

Definition handleResponse (question : jstring) (data : json_data) : M unit :=
  content <- lift_result (get_field data (js "answer")) ;;
  chatMessage <- ChatMessage.new content (js "ai") ;;
  _ <- addMessage chatMessage ;;
  answer <- lift_result (get_field data (js "answer")) ;;
  modify (fun p =>
    set_conversationHistory
      (conversationHistory p ++ [{| question := question; answer := answer;
                                    timestamp := now p |}]) p).

Definition connection_notice : jstring :=
  js "Failed to connect to the server. Please make sure the backend is running.".

Definition handleError (e : error) : M unit :=
  _ <- console_error e ;;
  ErrorMessage.display (ErrorMessage.new connection_notice).

(** [handleFormSubmit] up to its [await]: returns the question whose
    answer it now waits for, or [None] when it returned early.  The call
    of [fetchAnswer] is the first statement of the [try] block; it cannot
    throw before it suspends. *)
Definition handleFormSubmit : M (option jstring) :=
  value <- gets input_value ;;
  let question := trim value in
  if bool_decide (question = []) then ret None
  else
    _ <- hideWelcomeScreen ;;
    chatMessage <- ChatMessage.new (VString question) (js "user") ;;
    _ <- addMessage chatMessage ;;
    _ <- clearInput ;;
    _ <- setLoadingState true ;;
    typingDiv <- TypingIndicator.create ;;
    _ <- appendChild typingDiv ;;
    _ <- fetchAnswer question ;;
    ret (Some question).

(** The [try] block after the [await], with its [catch]. *)
Definition settle_body (question : jstring) (o : outcome) : M unit :=
  try_catch
    (data <- fetchAnswer_settled o ;; handleResponse question data)
    handleError.

(** The [finally] block. *)
Definition cleanup : M unit :=
  _ <- setLoadingState false ;;
  TypingIndicator.remove.

(** [handleFormSubmit] from the point where the exchange settles. *)
Definition handleFormSubmit_settled (question : jstring) (o : outcome)
    : M unit :=
  try_catch_finally
    (data <- fetchAnswer_settled o ;; handleResponse question data)
    handleError
    cleanup.

(** [handleKeyDown]: Enter without Shift dispatches [submit] on the
    form, which runs [handleFormSubmit] before [dispatchEvent] returns. *)
Definition handleKeyDown (key : jstring) (shiftKey : bool)
    : M (option jstring) :=
  if bool_decide (key = js "Enter") && negb shiftKey then handleFormSubmit
  else ret None.

End ChatUI.

(** ** Events of the page *)

(** What can happen to a page.  The first three are the input path of a
    user: a disabled field takes no typing and no key, a disabled button
    no click.  [UserTypes] is any edit of the field, with the
    [scrollHeight] the browser then measures; it includes the line break
    that Shift+Enter inserts.  [Settles i o] ends the [i]-th request in
    flight with outcome [o]; [TimerFires i] runs the [i]-th pending timer
    once it is due. *)
Inductive event :=
| UserTypes (text : jstring) (measured : N)
| UserKeyDown (key : jstring) (shiftKey : bool)
| UserClicksSubmit
| Settles (i : nat) (o : ChatUI.outcome)
| TimerFires (i : nat)
| TimePasses (dt : N)
| HostChangesChatMain (c : option scroller).

(** An exception that leaves a listener, a timer closure or the promise of
    [handleFormSubmit] is reported and nothing else. *)
Definition run_handler {A} (m : M A) (p : page) : page :=
  match m p with
  | (Normal _, p') => p'
  | (Throw e, p') => set_uncaught (uncaught p' ++ [e]) p'
  end.

Definition step (e : event) (p : page) : option page :=
  match e with
  | UserTypes text measured =>
    if input_disabled p then None
    else Some (run_handler (ChatUI.autoResizeInput measured)
                 (set_input_value text p))
  | UserKeyDown key shiftKey =>
    if input_disabled p then None
    else Some (run_handler (ChatUI.handleKeyDown key shiftKey) p)
  | UserClicksSubmit =>
    if submit_disabled p then None
    else Some (run_handler ChatUI.handleFormSubmit p)
  | Settles i o =>
    match inflight p !! i with
    | Some r =>
      Some (run_handler (ChatUI.handleFormSubmit_settled (asked r) o)
              (set_inflight (delete i (inflight p)) p))
    | None => None
    end
  | TimerFires i =>
    match timers p !! i with
    | Some t =>
      if due t <=? now p then
        Some (run_handler (run_callback (action t))
                (set_timers (delete i (timers p)) p))
      else None
    | None => None
    end
  | TimePasses dt => Some (set_now (now p + dt) p)
  | HostChangesChatMain c => Some (set_chatMain c p)
  end.

Fixpoint steps (es : list event) (p : page) : option page :=
  match es with
  | [] => Some p
  | e :: es' =>
    match step e p with
    | Some p' => steps es' p'
    | None => None
    end
  end.

(** ** Observations *)

(** The busy state as the code keeps it: the four properties written by
    [setLoadingState]. *)
Definition loading (b : bool) (p : page) : Prop :=
  submit_disabled p = b /\ input_disabled p = b
  /\ btnIcon_display p = (if b then js "none" else js "block")
  /\ spinner_display p = (if b then js "block" else js "none").

Definition is_typing (el : element) : bool :=
  bool_decide (id_attr el = js "typingIndicator").

Definition has_typing (p : page) : bool :=
  bool_decide (is_Some (getElementById (js "typingIndicator") (chatMessages p))).

(** An assistant message: an entry of class [message-ai] other than the
    typing placeholder. *)
Definition is_assistant (el : element) : bool :=
  bool_decide (className el = js "message message-ai") && negb (is_typing el).


Definition count (f : element -> bool) (p : page) : nat :=
  length (List.filter f (chatMessages p)).

(** The entry that renders [content] for [sender], as object [u]. *)
Definition message_element (u : nat) (content : jsval) (sender : jstring)
    : element :=
  {| uid := u;
     className := js "message message-" ++ sender;
     id_attr := [];
     body := InnerHTML
       (ChatMessage.template
          (if bool_decide (sender = js "user") then js "You"
           else js "AI CHAT BOT")
          (replace_newlines (serialize_text (to_text_content content)))) |}.

Definition typing_element (u : nat) : element :=
  {| uid := u; className := js "message message-ai";
     id_attr := js "typingIndicator";
     body := InnerHTML TypingIndicator.markup |}.

Definition notice_element (u : nat) : element :=
  {| uid := u; className := js "error-message"; id_attr := [];
     body := TextContent ChatUI.connection_notice |}.

(** The fixed connection-failure notice, whichever object carries it. *)
Definition is_notice (el : element) : bool :=
  bool_decide (el = notice_element (uid el)).

(** A page with everything but the history. *)
Definition with_history (h : list history_entry) (p : page) : page :=
  set_conversationHistory h p.

(** A small page to run the code on. *)
Definition demo_page (value : jstring) : page :=
  {| input_value := value; input_height := None;
     input_disabled := false; submit_disabled := false;
     btnIcon_display := []; spinner_display := [];
     welcomeScreen := Some []; chatMessages := [];
     chatMain := Some {| sc_uid := 0; scrollTop := 0; scrollHeight := 400;
                         clientHeight := 300 |};
     conversationHistory := []; console := []; timers := [];
     inflight := []; uncaught := []; now := 0; next_uid := 1 |}.

(** ** The effects of the handlers, written out

    Each of these pages is proved below to be what the code computes. *)

(** [TypingIndicator.remove] on the message list. *)
Definition remove_typing (l : list element) : list element :=
  match getElementById (js "typingIndicator") l with
  | Some el => remove_child el l
  | None => l
  end.

(** After the [finally] block. *)
Definition cleaned (p : page) : page :=
  set_chatMessages (remove_typing (chatMessages p))
    (set_spinner_display (js "none")
      (set_btnIcon_display (js "block")
        (set_input_disabled false (set_submit_disabled false p)))).

Definition sent (q : jstring) : request :=
  {| url := ChatUI.apiUrl; method := js "POST";
     contentType := js "application/json"; asked := q |}.

Definition scroll_timer (p : page) : timer :=
  {| due := now p + 100; action := ScrollDown (sc_uid <$> chatMain p) |}.

(** After [handleFormSubmit] has sent [q]. *)
Definition submitted (q : jstring) (p : page) : page :=
  {| input_value := []; input_height := None;
     input_disabled := true; submit_disabled := true;
     btnIcon_display := js "none"; spinner_display := js "block";
     welcomeScreen := match welcomeScreen p with
                      | Some _ => Some (js "none")
                      | None => None
                      end;
     chatMessages := chatMessages p
       ++ [message_element (next_uid p) (VString q) (js "user");
           typing_element (S (S (next_uid p)))];
     chatMain := chatMain p;
     conversationHistory := conversationHistory p;
     console := console p;
     timers := timers p ++ [scroll_timer p];
     inflight := inflight p ++ [sent q];
     uncaught := uncaught p; now := now p;
     next_uid := S (S (S (next_uid p))) |}.

(** After [handleResponse] has rendered the answer [a]. *)
Definition rendered (q : jstring) (a : jsval) (p : page) : page :=
  set_conversationHistory
    (conversationHistory p
       ++ [{| question := q; answer := a; timestamp := now p |}])
    (set_timers (timers p ++ [scroll_timer p])
      (set_chatMessages
         (chatMessages p ++ [message_element (next_uid p) a (js "ai")])
         (set_next_uid (S (S (next_uid p))) p))).

Definition notice_timer (p : page) : timer :=
  {| due := now p + 5000;
     action := RemoveElement (notice_element (next_uid p)) |}.

(** After [handleError] has reported [e]. *)
Definition failed (e : error) (p : page) : page :=
  set_timers (timers p ++ [notice_timer p])
    (set_chatMessages (chatMessages p ++ [notice_element (next_uid p)])
      (set_next_uid (S (next_uid p)) (set_console (console p ++ [e]) p))).

(** What the [try] block comes to for an outcome: the exception it
    throws, or the [answer] it renders. *)
Definition verdict (o : ChatUI.outcome) : error + jsval :=
  match o with
  | ChatUI.Rejected reason => inl (FetchRejected reason)
  | ChatUI.Responded _ None => inl SyntaxError
  | ChatUI.Responded false (Some data) =>
    match get_field data (js "error") with
    | inl e => inl e
    | inr err => inl (Error (if truthy_val err then to_string err
                             else js "Failed to get answer"))
    end
  | ChatUI.Responded true (Some data) => get_field data (js "answer")
  end.

(** After the [try] and [catch] blocks, before [finally]. *)
Definition answered (q : jstring) (o : ChatUI.outcome) (p : page) : page :=
  match verdict o with
  | inl e => failed e p
  | inr a => rendered q a p
  end.

(** ** Pages between two events *)

(** The page once [new ChatUI()] has run: nothing sent, nothing
    scheduled, the controls usable and no typing placeholder around. *)
Definition initial (p : page) : Prop :=
  inflight p = [] /\ input_disabled p = false /\ submit_disabled p = false
  /\ count is_typing p = 0%nat /\ timers p = [].

(** Closures that remove an element never aim at a typing placeholder. *)
Definition spares_typing (t : timer) : Prop :=
  match action t with
  | RemoveElement el => is_typing el = false
  | ScrollDown _ => True
  end.

Definition inv (p : page) : Prop :=
  (length (inflight p) <= 1)%nat
  /\ (inflight p <> [] ->
      loading true p /\ input_value p = [] /\ count is_typing p = 1%nat)
  /\ (inflight p = [] ->
      input_disabled p = false /\ submit_disabled p = false
      /\ count is_typing p = 0%nat)
  /\ Forall spares_typing (timers p).

(** The events of the user's input path. *)
Definition user_event (e : event) : Prop :=
  match e with
  | UserTypes _ _ | UserKeyDown _ _ | UserClicksSubmit => True
  | _ => False
  end.

(** Two pages that differ at most in the conversation history. *)
Definition same_but_history (p1 p2 : page) : Prop :=
  with_history [] p1 = with_history [] p2.

(** An exchange that fails: [fetch] rejects, or the status is not 2xx. *)
Definition failure (o : ChatUI.outcome) : Prop :=
  match o with
  | ChatUI.Rejected _ => True
  | ChatUI.Responded ok _ => ok = false
  end.

(** The history a page gains: what lies beyond the entries of [p]. *)
Definition gained (p p' : page) : list history_entry :=
  drop (length (conversationHistory p)) (conversationHistory p').

(** ** Further observations *)

Definition whitespace_only (s : jstring) : Prop :=
  Forall (fun c => is_whitespace c = true) s.

(** A code unit that neither the serialisation nor the replacement of
    newlines touches. *)
Definition plain (c : N) : bool :=
  negb ((c =? AMP) || (c =? NBSP) || (c =? LT) || (c =? GT) || (c =? LF)).

(** The messages of the conversation: every entry of the list but the
    typing placeholder and the connection notices. *)
Definition is_message (el : element) : bool :=
  negb (is_typing el) && negb (is_notice el).

Definition transcript (p : page) : list element :=
  List.filter is_message (chatMessages p).

(** The question [q] is on display as a message of the user. *)
Definition shown (q : jstring) (p : page) : Prop :=
  exists u, message_element u (VString q) (js "user") ∈ chatMessages p.

(** Closures that remove an element aim at a connection notice. *)
Definition aims_at_notice (t : timer) : Prop :=
  match action t with
  | RemoveElement el => is_notice el = true
  | ScrollDown _ => True
  end.

(** The scroll closure holds a container. *)
Definition holds_container (t : timer) : Prop :=
  action t <> ScrollDown None.

(** Every request in flight and every entry of the history has its
    question on display. *)
Definition asked_are_shown (p : page) : Prop :=
  (forall r, r ∈ inflight p -> shown (asked r) p)
  /\ (forall h, h ∈ conversationHistory p -> shown (question h) p).

(** An entry the controller itself creates: a message of the user, the
    typing placeholder, a message of the assistant or the connection
    notice. *)
Definition created (el : element) : Prop :=
  (exists u q, el = message_element u (VString q) (js "user"))
  \/ (exists u, el = typing_element u)
  \/ (exists u a, el = message_element u a (js "ai"))
  \/ (exists u, el = notice_element u).

(** ** Reading the markup of an entry

    What the browser makes of the string assigned to [innerHTML] of a
    [div]: the HTML fragment parser on the markup this code writes, which
    is text, the character references of the serialiser, [<br>], and
    [div] elements with at most a double-quoted [class].  Newlines are
    normalised before tokenisation (a CR LF pair and a lone CR become
    LF) and the tree builder drops U+0000.  Any other tag, comment or
    character reference is reported as [TOther], and the reading of a
    fragment that has one, or whose [div]s do not match, is [None]. *)

Definition CR : N := 13.
Definition NUL : N := 0.

Inductive html_token :=
| TChar (c : N)
| TBr
| TStartDiv (class : jstring)
| TEndDiv
| TOther.

(** The value of a double-quoted attribute, up to the closing quote. *)
Fixpoint attribute_value (s : jstring) : option jstring :=
  match s with
  | [] => None
  | c :: rest =>
    if c =? QUOTE then Some []
    else if (c =? AMP) || (c =? NUL) || (c =? CR) then None
    else cons c <$> attribute_value rest
  end.

(** The tag that starts after a [<], with the number of code units it
    takes. *)
Definition read_tag (rest : jstring) : html_token * nat :=
  if starts_with (js "br>") rest then (TBr, 3%nat)
  else if starts_with (js "/div>") rest then (TEndDiv, 5%nat)
  else if starts_with (js "div>") rest then (TStartDiv [], 4%nat)
  else if starts_with (js "div class=" ++ [QUOTE]) rest then
    match attribute_value (drop 11 rest) with
    | Some v =>
      if starts_with [GT] (drop (11 + length v + 1) rest)
      then (TStartDiv v, (11 + length v + 2)%nat)
      else (TOther, 0%nat)
    | None => (TOther, 0%nat)
    end
  else (TOther, 0%nat).

Definition is_alphanumeric (c : N) : bool :=
  ((48 <=? c) && (c <=? 57)) || ((65 <=? c) && (c <=? 90))
  || ((97 <=? c) && (c <=? 122)).

(** An ampersand that starts no character reference is text. *)
Definition ampersand_is_text (rest : jstring) : bool :=
  match rest with
  | [] => true
  | d :: _ => negb (is_alphanumeric d || (d =? 35))
  end.

Fixpoint html_tokens (skip : nat) (s : jstring) : list html_token :=
  match s with
  | [] => []
  | c :: rest =>
    match skip with
    | S k => html_tokens k rest
    | O =>
      if c =? LT then
        fst (read_tag rest) :: html_tokens (snd (read_tag rest)) rest
      else if c =? AMP then
        if starts_with (js "amp;") rest then TChar AMP :: html_tokens 4 rest
        else if starts_with (js "lt;") rest then TChar LT :: html_tokens 3 rest
        else if starts_with (js "gt;") rest then TChar GT :: html_tokens 3 rest
        else if starts_with (js "nbsp;") rest then TChar NBSP :: html_tokens 5 rest
        else if ampersand_is_text rest then TChar AMP :: html_tokens 0 rest
        else TOther :: html_tokens 0 rest
      else if c =? NUL then html_tokens 0 rest
      else if c =? CR then
        if starts_with [LF] rest then html_tokens 0 rest
        else TChar LF :: html_tokens 0 rest
      else TChar c :: html_tokens 0 rest
    end
  end.

#[local] Unset Elimination Schemes.

Inductive node :=
| NText (text : jstring)
| NBr
| NDiv (class : jstring) (children : list node).

#[local] Set Elimination Schemes.

(** A character joins the text node before it, or starts a new one. *)
Fixpoint add_char (c : N) (cur : list node) : list node :=
  match cur with
  | [] => [NText [c]]
  | [NText s] => [NText (s ++ [c])]
  | n :: rest => n :: add_char c rest
  end.

(** The tree builder: [open] holds, for every [div] that is open, its
    class and the children its parent had before it; [cur] the children
    of the innermost open element so far. *)
Fixpoint build_tree (toks : list html_token)
    (open : list (jstring * list node)) (cur : list node)
    : option (list node) :=
  match toks with
  | [] => match open with [] => Some cur | _ :: _ => None end
  | TChar c :: rest => build_tree rest open (add_char c cur)
  | TBr :: rest => build_tree rest open (cur ++ [NBr])
  | TStartDiv cl :: rest => build_tree rest ((cl, cur) :: open) []
  | TEndDiv :: rest =>
    match open with
    | (cl, parent) :: outer => build_tree rest outer (parent ++ [NDiv cl cur])
    | [] => None
    end
  | TOther :: _ => None
  end.

Definition parse_fragment (markup : jstring) : option (list node) :=
  build_tree (html_tokens 0 markup) [] [].

(** What a code unit of a message content comes to on display: a
    newline is a line break, a carriage return reads as a newline
    character, U+0000 is dropped, anything else is itself as text. *)
Definition displayed (c : N) : list html_token :=
  if c =? LF then [TBr]
  else if c =? CR then [TChar LF]
  else if c =? NUL then []
  else [TChar c].

Definition place (cur : list node) (t : html_token) : list node :=
  match t with
  | TChar c => add_char c cur
  | TBr => cur ++ [NBr]
  | _ => cur
  end.

(** The text and line-break nodes a content is displayed as. *)
Definition content_nodes (s : jstring) : list node :=
  fold_left place (flat_map displayed s) [].

(** The tree of an entry that shows [label] over [content]: the outer
    [div] with the two inner ones, and the white space of the template
    between them. *)
Definition message_tree (label : jstring) (content : list node) : list node :=
  [NText ([LF] ++ js "      ");
   NDiv []
     [NText ([LF] ++ js "        ");
      NDiv (js "message-label") [NText label];
      NText ([LF] ++ js "        ");
      NDiv (js "message-content") content;
      NText ([LF] ++ js "      ")];
   NText ([LF] ++ js "    ")].

(** The text of a tree, a line break counting as a newline. *)
Fixpoint inner_text (n : node) : jstring :=
  match n with
  | NText s => s
  | NBr => [LF]
  | NDiv _ children => flat_map inner_text children
  end.

Definition is_inline (n : node) : bool :=
  match n with
  | NText _ | NBr => true
  | NDiv _ _ => false
  end.

(** The text a code unit of a content contributes to an entry. *)
Definition text_unit (c : N) : jstring :=
  if c =? CR then [LF] else if c =? NUL then [] else [c].

(** ** Proof steps shared by the lemmas on the handlers *)

Ltac open_page p :=
  destruct p as [value height idis sdis icon spin welcome msgs cmain hist
                 cons tms infl unc clock fresh].

Ltac run_code :=
  unfold ChatUI.handleFormSubmit_settled, ChatUI.settle_body, ChatUI.cleanup,
    ChatUI.handleResponse, ChatUI.handleError, ChatUI.fetchAnswer_settled,
    ChatUI.response_json, ChatUI.hideWelcomeScreen, ChatUI.addMessage,
    ChatUI.clearInput, ChatUI.setLoadingState, ChatUI.fetchAnswer,
    ChatUI.fetch,
    ChatUI.scrollToBottom, ChatUI.autoResizeInput,
    ChatMessage.new, ChatMessage.getElement, ChatMessage.escapeHtml,
    ChatMessage.getSenderLabel, TypingIndicator.create, TypingIndicator.remove,
    ErrorMessage.display, ErrorMessage.create, ErrorMessage.new,
    appendChild, setTimeout, createElement, querySelector_chatMain,
    console_error, try_catch, try_catch_finally, lift_result,
    bind, modify, gets, ret, throw.

(** * Properties *)

(** ** Strings *)

Lemma trimStart_nil_iff s :
  trimStart s = [] <-> Forall (fun c => is_whitespace c = true) s.
Proof.
  induction s as [|c s IH]; simpl.
  - split; auto.
  - destruct (is_whitespace c) eqn:E.
    + rewrite IH. split; [intros; constructor; auto | inversion 1; auto].
    + split; [discriminate | inversion 1; congruence].
Qed.

Lemma trimStart_head s c r : trimStart s = c :: r -> is_whitespace c = false.
Proof.
  induction s as [|d s IH]; simpl; [discriminate|].
  destruct (is_whitespace d) eqn:E; [auto | congruence].
Qed.

(** [trim] leaves nothing exactly when every code unit is white space. *)
Lemma trim_nil_iff s :
  trim s = [] <-> Forall (fun c => is_whitespace c = true) s.
Proof.
  unfold trim, trimEnd. split.
  - intros H. apply trimStart_nil_iff.
    destruct (trimStart s) as [|c r] eqn:E; [done|].
    apply (f_equal (@rev N)) in H. rewrite rev_involutive in H. simpl in H.
    apply trimStart_nil_iff in H.
    apply trimStart_head in E.
    rewrite Forall_forall in H. specialize (H c).
    rewrite H in E; [discriminate|].
    apply list_elem_of_In. apply in_or_app. right. left. done.
  - intros H. apply trimStart_nil_iff in H. rewrite H. done.
Qed.

Lemma replace_newlines_app a b :
  replace_newlines (a ++ b) = replace_newlines a ++ replace_newlines b.
Proof. unfold replace_newlines. apply flat_map_app. Qed.

(** Reading the escaped text back gives the text, unit for unit. *)
Lemma tokenize_escaped s :
  tokenize (replace_newlines (serialize_text s)) = map literal s.
Proof.
  unfold tokenize, serialize_text.
  induction s as [|c s IH]; [done|].
  simpl flat_map. rewrite replace_newlines_app. simpl map. rewrite <- IH.
  unfold escape_unit, literal.
  destruct (N.eqb_spec c AMP) as [->|Hamp]; [reflexivity|].
  destruct (N.eqb_spec c NBSP) as [->|Hnb]; [reflexivity|].
  destruct (N.eqb_spec c LT) as [->|Hlt]; [reflexivity|].
  destruct (N.eqb_spec c GT) as [->|Hgt]; [reflexivity|].
  destruct (N.eqb_spec c LF) as [->|Hlf]; [reflexivity|].
  unfold replace_newlines at 1. simpl flat_map.
  rewrite (proj2 (N.eqb_neq c LF) Hlf). simpl.
  rewrite (proj2 (N.eqb_neq c LT) Hlt), (proj2 (N.eqb_neq c AMP) Hamp). done.
Qed.

(** ** Running the handlers *)

Lemma cleanup_run p : ChatUI.cleanup p = (Normal tt, cleaned p).
Proof.
  open_page p. run_code. unfold cleaned, remove_typing. simpl.
  destruct (getElementById _ _); reflexivity.
Qed.

Lemma setLoadingState_loading b p :
  exists p', ChatUI.setLoadingState b p = (Normal tt, p') /\ loading b p'
    /\ chatMessages p' = chatMessages p /\ inflight p' = inflight p
    /\ conversationHistory p' = conversationHistory p.
Proof.
  open_page p. run_code. unfold loading. destruct b; simpl; eauto 10.
Qed.

Lemma handleFormSubmit_blank p :
  trim (input_value p) = [] -> ChatUI.handleFormSubmit p = (Normal None, p).
Proof.
  intros H. unfold ChatUI.handleFormSubmit, bind, gets, ret.
  rewrite bool_decide_eq_true_2; done.
Qed.

Lemma handleFormSubmit_sends p :
  trim (input_value p) <> [] ->
  ChatUI.handleFormSubmit p
  = (Normal (Some (trim (input_value p))), submitted (trim (input_value p)) p).
Proof.
  intros H. open_page p. unfold ChatUI.handleFormSubmit, submitted, scroll_timer.
  unfold bind at 1. unfold gets at 1. simpl in *.
  rewrite bool_decide_eq_false_2 by done.
  run_code. simpl. rewrite <- app_assoc. simpl.
  destruct welcome; reflexivity.
Qed.

Lemma handleError_run e p : ChatUI.handleError e p = (Normal tt, failed e p).
Proof. open_page p. reflexivity. Qed.

Lemma try_block_run q o p :
  (data <- ChatUI.fetchAnswer_settled o ;; ChatUI.handleResponse q data) p
  = match verdict o with
    | inl e => (Throw e, p)
    | inr a => (Normal tt, rendered q a p)
    end.
Proof.
  open_page p. unfold verdict.
  destruct o as [reason|[|] [data|]]; try reflexivity.
  - run_code. simpl. destruct (get_field data (js "answer")); reflexivity.
  - run_code. simpl. destruct (get_field data (js "error")); reflexivity.
Qed.

Lemma settle_body_run q o p :
  ChatUI.settle_body q o p = (Normal tt, answered q o p).
Proof.
  unfold ChatUI.settle_body, try_catch, try_catch_finally, answered.
  rewrite try_block_run. destruct (verdict o) as [e|a].
  - rewrite handleError_run. reflexivity.
  - reflexivity.
Qed.

Lemma handleFormSubmit_settled_run q o p :
  ChatUI.handleFormSubmit_settled q o p = (Normal tt, cleaned (answered q o p)).
Proof.
  unfold ChatUI.handleFormSubmit_settled, try_catch_finally, answered.
  rewrite try_block_run. destruct (verdict o) as [e|a].
  - rewrite handleError_run, cleanup_run. reflexivity.
  - rewrite cleanup_run. reflexivity.
Qed.

(** The [finally] block runs whatever the two blocks before it do. *)
Lemma finally_always_runs {A} (body : M A) (handler : error -> M A) p :
  exists r p2, try_catch_finally body handler ChatUI.cleanup p = (r, cleaned p2).
Proof.
  unfold try_catch_finally.
  destruct (body p) as [[a|e] p1].
  - rewrite cleanup_run. eauto.
  - destruct (handler e p1) as [r' p2]. rewrite cleanup_run. eauto.
Qed.

Lemma cleaned_loading p : loading false (cleaned p).
Proof. open_page p. unfold loading. simpl. done. Qed.

(** ** Entries of the message list *)

Lemma filter_remove_child_other (f : element -> bool) el l :
  f el = false -> List.filter f (remove_child el l) = List.filter f l.
Proof.
  intros Hf. induction l as [|x l IH]; [done|]. simpl.
  case_bool_decide as Hx.
  - subst x. rewrite Hf. done.
  - simpl. rewrite IH. done.
Qed.

Lemma filter_remove_child_in (f : element -> bool) el l :
  f el = true -> el ∈ l ->
  S (length (List.filter f (remove_child el l))) = length (List.filter f l).
Proof.
  intros Hf. induction l as [|x l IH]; intros Hin.
  - by apply elem_of_nil in Hin.
  - simpl. case_bool_decide as Hx.
    + subst x. rewrite Hf. done.
    + apply elem_of_cons in Hin as [->|Hin]; [done|].
      simpl. destruct (f x); simpl; rewrite <- (IH Hin); done.
Qed.

Lemma getElementById_Some i l el :
  getElementById i l = Some el -> el ∈ l /\ id_attr el = i.
Proof.
  unfold getElementById. intros H. apply find_some in H as [Hin Hb].
  split; [by apply list_elem_of_In | by apply bool_decide_eq_true_1 in Hb].
Qed.

Lemma getElementById_None i l :
  getElementById i l = None ->
  List.filter (fun el => bool_decide (id_attr el = i)) l = [].
Proof.
  unfold getElementById. induction l as [|x l IH]; [done|]. simpl.
  destruct (bool_decide (id_attr x = i)); [discriminate | auto].
Qed.

Lemma remove_typing_spares (f : element -> bool) l :
  (forall el, is_typing el = true -> f el = false) ->
  List.filter f (remove_typing l) = List.filter f l.
Proof.
  intros Hf. unfold remove_typing.
  destruct (getElementById _ l) as [el|] eqn:E; [|done].
  apply getElementById_Some in E as [_ E].
  apply filter_remove_child_other, Hf. unfold is_typing.
  by apply bool_decide_eq_true_2.
Qed.

Lemma remove_typing_count l :
  length (List.filter is_typing (remove_typing l))
  = pred (length (List.filter is_typing l)).
Proof.
  unfold remove_typing.
  destruct (getElementById _ l) as [el|] eqn:E.
  - apply getElementById_Some in E as [Hin E].
    rewrite <- (filter_remove_child_in is_typing el l); [done| |done].
    unfold is_typing. by apply bool_decide_eq_true_2.
  - apply getElementById_None in E. unfold is_typing. rewrite E. done.
Qed.

Lemma has_typing_count p :
  has_typing p = true <-> count is_typing p <> 0%nat.
Proof.
  unfold has_typing, count.
  destruct (getElementById _ (chatMessages p)) as [el|] eqn:E.
  - case_bool_decide as Hs; [|exfalso; eauto].
    apply getElementById_Some in E as [Hin E].
    pose proof (filter_remove_child_in is_typing el (chatMessages p)) as H.
    unfold is_typing at 1 in H. rewrite bool_decide_eq_true_2 in H by done.
    specialize (H eq_refl Hin). split; [lia | done].
  - case_bool_decide as Hs; [destruct Hs; discriminate|].
    apply getElementById_None in E. unfold is_typing. rewrite E. simpl.
    split; [discriminate | done].
Qed.

Lemma is_typing_assistant el : is_typing el = true -> is_assistant el = false.
Proof. unfold is_assistant. intros ->. apply andb_false_r. Qed.

Lemma is_typing_notice el : is_typing el = true -> is_notice el = false.
Proof.
  unfold is_typing, is_notice. intros H. apply bool_decide_eq_true_1 in H.
  apply bool_decide_eq_false_2. intros E. rewrite E in H. discriminate.
Qed.

Lemma message_not_typing u c s : is_typing (message_element u c s) = false.
Proof. reflexivity. Qed.

Lemma notice_not_typing u : is_typing (notice_element u) = false.
Proof. reflexivity. Qed.

Lemma notice_is_notice u : is_notice (notice_element u) = true.
Proof. unfold is_notice. by apply bool_decide_eq_true_2. Qed.

Lemma notice_not_assistant u : is_assistant (notice_element u) = false.
Proof. reflexivity. Qed.

Lemma message_not_notice u c s : is_notice (message_element u c s) = false.
Proof. unfold is_notice. apply bool_decide_eq_false_2. discriminate. Qed.

Lemma answer_is_assistant u c : is_assistant (message_element u c (js "ai")) = true.
Proof. reflexivity. Qed.

Lemma count_app_one (f : element -> bool) l el :
  length (List.filter f (l ++ [el]))
  = (length (List.filter f l) + (if f el then 1 else 0))%nat.
Proof.
  rewrite List.filter_app, length_app. simpl. destruct (f el); done.
Qed.

(** ** The invariant of the pages between two events *)

Lemma run_handleFormSubmit p :
  run_handler ChatUI.handleFormSubmit p
  = if bool_decide (trim (input_value p) = []) then p
    else submitted (trim (input_value p)) p.
Proof.
  unfold run_handler. case_bool_decide as H.
  - rewrite handleFormSubmit_blank; done.
  - rewrite handleFormSubmit_sends; done.
Qed.

Lemma run_handleKeyDown key shiftKey p :
  run_handler (ChatUI.handleKeyDown key shiftKey) p
  = if bool_decide (key = js "Enter") && negb shiftKey
    then run_handler ChatUI.handleFormSubmit p else p.
Proof.
  unfold ChatUI.handleKeyDown.
  destruct (bool_decide (key = js "Enter") && negb shiftKey); reflexivity.
Qed.

Lemma run_settled q o p :
  run_handler (ChatUI.handleFormSubmit_settled q o) p = cleaned (answered q o p).
Proof. unfold run_handler. rewrite handleFormSubmit_settled_run. done. Qed.

Lemma inv_initial p : initial p -> inv p.
Proof.
  intros (Hi & Hd & Hs & Ht & Htm). unfold inv. rewrite Hi, Htm.
  repeat split; simpl; auto; done.
Qed.

Lemma inv_idle p : inv p -> input_disabled p = false \/ submit_disabled p = false ->
  inflight p = [].
Proof.
  intros (_ & Hbusy & _) H.
  destruct (inflight p) as [|r l] eqn:E; [done|].
  destruct Hbusy as ((Hs & Hi & _) & _); [done|].
  destruct H; congruence.
Qed.

Lemma inv_submitted q p : inv p -> inflight p = [] -> inv (submitted q p).
Proof.
  intros (Hlen & _ & Hidle & Htm) E. destruct (Hidle E) as (_ & _ & Hc).
  unfold inv, loading, count in *. simpl. rewrite E. simpl.
  repeat split; auto.
  - rewrite List.filter_app, length_app. simpl. lia.
  - discriminate.
  - discriminate.
  - discriminate.
  - apply Forall_app. split; [done|]. repeat constructor.
Qed.

Lemma answered_fields q o p :
  exists el t,
    chatMessages (answered q o p) = chatMessages p ++ [el]
    /\ is_typing el = false
    /\ timers (answered q o p) = timers p ++ [t]
    /\ spares_typing t
    /\ inflight (answered q o p) = inflight p
    /\ input_value (answered q o p) = input_value p.
Proof.
  unfold answered. destruct (verdict o) as [e|a]; simpl.
  - exists (notice_element (next_uid p)), (notice_timer p).
    repeat split; done.
  - exists (message_element (next_uid p) a (js "ai")), (scroll_timer p).
    repeat split; done.
Qed.

Lemma inv_settled q o r p :
  inv p -> inflight p = [r] ->
  inv (cleaned (answered q o (set_inflight [] p))).
Proof.
  intros (Hlen & Hbusy & _ & Htm) E.
  destruct Hbusy as (_ & _ & Hc); [rewrite E; done|].
  destruct (answered_fields q o (set_inflight [] p))
    as (el & t & Hm & Hel & Ht & Hst & Hi & Hv).
  unfold inv, count in *. simpl. rewrite Hm, Ht, Hi. simpl.
  repeat split; auto; try done.
  - rewrite remove_typing_count, count_app_one, Hel, Hc. done.
  - apply Forall_app. split; [done|]. by constructor.
Qed.

Lemma inv_step e p p' : inv p -> step e p = Some p' -> inv p'.
Proof.
  intros Hinv Hstep. destruct e as [text m|key shift| |i o|i|dt|c]; simpl in Hstep.
  - destruct (input_disabled p) eqn:Hd; [discriminate|].
    injection Hstep as <-.
    pose proof (inv_idle p Hinv (or_introl Hd)) as E.
    destruct Hinv as (Hlen & _ & Hidle & Htm).
    destruct (Hidle E) as (_ & Hs & Hc).
    unfold inv, count in *. simpl. rewrite E. repeat split; auto; done.
  - destruct (input_disabled p) eqn:Hd; [discriminate|].
    injection Hstep as <-.
    pose proof (inv_idle p Hinv (or_introl Hd)) as E.
    rewrite run_handleKeyDown, run_handleFormSubmit.
    destruct (_ && _); [|done].
    case_bool_decide; [done|]. by apply inv_submitted.
  - destruct (submit_disabled p) eqn:Hd; [discriminate|].
    injection Hstep as <-.
    pose proof (inv_idle p Hinv (or_intror Hd)) as E.
    rewrite run_handleFormSubmit.
    case_bool_decide; [done|]. by apply inv_submitted.
  - destruct (inflight p !! i) as [r|] eqn:Hr; [|discriminate].
    injection Hstep as <-. rewrite run_settled.
    assert (E : inflight p = [r] /\ i = 0%nat).
    { destruct Hinv as (Hlen & _).
      destruct (inflight p) as [|r' [|r'' l]]; simpl in Hlen; [done| |lia].
      destruct i; simpl in Hr; [split; congruence | done]. }
    destruct E as [E ->]. rewrite E. simpl.
    by apply (inv_settled _ _ r).
  - destruct (timers p !! i) as [t|] eqn:Ht; [|discriminate].
    destruct (due t <=? now p); [|discriminate].
    injection Hstep as <-.
    destruct Hinv as (Hlen & Hbusy & Hidle & Htm).
    assert (Hsp : spares_typing t).
    { rewrite Forall_forall in Htm. apply Htm.
      by eapply list_elem_of_lookup_2. }
    assert (Hdel : Forall spares_typing (delete i (timers p))).
    { apply Forall_forall. intros x Hx. rewrite Forall_forall in Htm.
      apply Htm. by eapply list_elem_of_delete_inv. }
    unfold run_handler, run_callback, spares_typing in *.
    destruct (action t) as [el|[u|]]; unfold modify, throw, scroll_to_end; simpl.
    + unfold inv, loading, count in *. simpl.
      rewrite filter_remove_child_other by done. done.
    + destruct (chatMain p) as [c|]; [destruct (Nat.eqb _ _)|]; done.
    + done.
  - injection Hstep as <-. done.
  - injection Hstep as <-. done.
Qed.

Lemma inv_steps es : forall p p', inv p -> steps es p = Some p' -> inv p'.
Proof.
  induction es as [|e es IH]; simpl; intros p p' Hinv H.
  - by injection H as <-.
  - destruct (step e p) as [p1|] eqn:E; [|discriminate].
    eapply IH; [|done]. by eapply inv_step.
Qed.

(** ** The conversation history is only ever appended to, and never read *)

Lemma with_history_idem h h' p : with_history h (with_history h' p) = with_history h p.
Proof. open_page p. reflexivity. Qed.

Lemma with_history_self p : with_history (conversationHistory p) p = p.
Proof. open_page p. reflexivity. Qed.

Lemma submitted_with_history q h p :
  submitted q (with_history h p) = with_history h (submitted q p).
Proof. open_page p. reflexivity. Qed.

Lemma settled_with_history q o h p :
  cleaned (answered q o (with_history h p))
  = with_history (h ++ gained p (cleaned (answered q o p)))
      (cleaned (answered q o p)).
Proof.
  open_page p. unfold answered, gained. destruct (verdict o) as [e|a]; simpl.
  - rewrite drop_all, app_nil_r. reflexivity.
  - rewrite drop_app_length. reflexivity.
Qed.

Lemma step_with_history e h p :
  step e (with_history h p)
  = (fun p' => with_history (h ++ gained p p') p') <$> step e p.
Proof.
  destruct e as [text m|key shift| |i o|i|dt|c]; simpl.
  - open_page p. simpl. destruct idis; simpl; [done|].
    unfold gained. simpl. rewrite drop_all, app_nil_r. done.
  - replace (input_disabled (with_history h p)) with (input_disabled p)
      by (by open_page p).
    destruct (input_disabled p); simpl; [done|]. f_equal.
    rewrite !run_handleKeyDown, !run_handleFormSubmit.
    replace (input_value (with_history h p)) with (input_value p)
      by (by open_page p).
    destruct (_ && _); [case_bool_decide|].
    + unfold gained. rewrite drop_all, app_nil_r. done.
    + rewrite submitted_with_history. unfold gained. open_page p. simpl.
      rewrite drop_all, app_nil_r. done.
    + unfold gained. rewrite drop_all, app_nil_r. done.
  - replace (submit_disabled (with_history h p)) with (submit_disabled p)
      by (by open_page p).
    destruct (submit_disabled p); simpl; [done|]. f_equal.
    rewrite !run_handleFormSubmit.
    replace (input_value (with_history h p)) with (input_value p)
      by (by open_page p).
    case_bool_decide.
    + unfold gained. rewrite drop_all, app_nil_r. done.
    + rewrite submitted_with_history. unfold gained. open_page p. simpl.
      rewrite drop_all, app_nil_r. done.
  - replace (inflight (with_history h p)) with (inflight p)
      by (by open_page p).
    destruct (inflight p !! i) as [r|]; simpl; [|done]. f_equal.
    rewrite !run_settled.
    replace (set_inflight (delete i (inflight p)) (with_history h p))
      with (with_history h (set_inflight (delete i (inflight p)) p))
      by (by open_page p).
    rewrite settled_with_history. reflexivity.
  - replace (timers (with_history h p)) with (timers p) by (by open_page p).
    replace (now (with_history h p)) with (now p) by (by open_page p).
    destruct (timers p !! i) as [t|]; simpl; [|done].
    destruct (due t <=? now p); simpl; [|done]. f_equal.
    unfold run_handler, run_callback, gained.
    destruct (action t) as [el|[u|]]; open_page p;
      unfold modify, throw, scroll_to_end; simpl;
      try (destruct cmain as [cm|]; [destruct (Nat.eqb _ _)|]; simpl);
      rewrite drop_all, app_nil_r; reflexivity.
  - unfold gained. open_page p. simpl. rewrite drop_all, app_nil_r. done.
  - unfold gained. open_page p. simpl. rewrite drop_all, app_nil_r. done.
Qed.

Lemma step_appends e p p' :
  step e p = Some p' ->
  conversationHistory p' = conversationHistory p ++ gained p p'.
Proof.
  intros H. pose proof (step_with_history e (conversationHistory p) p) as E.
  rewrite with_history_self, H in E. simpl in E. injection E as E.
  rewrite E at 1. by open_page p'.
Qed.

Lemma step_ignores_history e p1 p2 :
  same_but_history p1 p2 ->
  match step e p1, step e p2 with
  | Some a, Some b =>
    same_but_history a b
    /\ exists l, conversationHistory a = conversationHistory p1 ++ l
                 /\ conversationHistory b = conversationHistory p2 ++ l
  | None, None => True
  | _, _ => False
  end.
Proof.
  unfold same_but_history. intros H.
  assert (E : exists h2, p2 = with_history h2 p1).
  { exists (conversationHistory p2).
    rewrite <- (with_history_idem _ [] p1), H, with_history_idem.
    by rewrite with_history_self. }
  destruct E as [h2 ->]. rewrite step_with_history.
  destruct (step e p1) as [a|] eqn:Ha; simpl; [|done].
  split.
  - by rewrite with_history_idem.
  - exists (gained p1 a). split; [by apply (step_appends e)|].
    destruct a, p1; reflexivity.
Qed.

(** ** The request lifecycle *)

(** C1. A submission with non-empty trimmed input sets the busy state and
    sends the question; when the exchange settles, whether [fetch]
    rejected, the status was an error or the answer arrived, the handler
    ends with the busy state set back to false.  The [finally] block does
    this whatever the rendering and the error report do, also when they
    throw. *)
Theorem C1_busy_cleared_when_exchange_settles (p : page) :
  trim (input_value p) <> [] ->
  exists q p1,
    ChatUI.handleFormSubmit p = (Normal (Some q), p1)
    /\ loading true p1
    /\ (forall o p', exists p2,
          ChatUI.handleFormSubmit_settled q o p' = (Normal tt, p2)
          /\ loading false p2)
    /\ (forall (render : jstring -> json_data -> M unit)
               (report : error -> M unit) o p',
          loading false
            (snd (try_catch_finally
                    (data <- ChatUI.fetchAnswer_settled o ;; render q data)
                    report ChatUI.cleanup p'))).
Proof.
  intros H. exists (trim (input_value p)), (submitted (trim (input_value p)) p).
  split; [by apply handleFormSubmit_sends|].
  split; [by unfold loading|].
  split.
  - intros o p'. exists (cleaned (answered (trim (input_value p)) o p')).
    split; [apply handleFormSubmit_settled_run | apply cleaned_loading].
  - intros render report o p'.
    destruct (finally_always_runs
                (data <- ChatUI.fetchAnswer_settled o ;;
                 render (trim (input_value p)) data) report p')
      as (r & p2 & ->).
    apply cleaned_loading.
Qed.

Lemma C1_witness :
  exists q p1,
    ChatUI.handleFormSubmit (demo_page (js " 2+2? ")) = (Normal (Some q), p1)
    /\ loading true p1.
Proof.
  destruct (C1_busy_cleared_when_exchange_settles (demo_page (js " 2+2? ")))
    as (q & p1 & H1 & H2 & _).
  - vm_compute. discriminate.
  - exists q, p1. split; assumption.
Defined.

(** C6. When the input is empty or consists of white space only, the
    submit does nothing at all: the handler returns before its first
    effect and leaves the page as it was, with no entry rendered, no
    request sent, no state changed and no error reported, whether the
    submit came from the button or from the Enter key. *)
Theorem C6_blank_submit_is_suppressed (p : page) :
  Forall (fun c => is_whitespace c = true) (input_value p) ->
  ChatUI.handleFormSubmit p = (Normal None, p)
  /\ (forall key shiftKey,
        ChatUI.handleKeyDown key shiftKey p = (Normal None, p))
  /\ (forall e p',
        e = UserClicksSubmit \/ (exists key shiftKey, e = UserKeyDown key shiftKey) ->
        step e p = Some p' -> p' = p).
Proof.
  intros H. apply trim_nil_iff in H.
  assert (Hs : ChatUI.handleFormSubmit p = (Normal None, p))
    by (by apply handleFormSubmit_blank).
  assert (Hk : forall key shiftKey,
             ChatUI.handleKeyDown key shiftKey p = (Normal None, p)).
  { intros key shiftKey. unfold ChatUI.handleKeyDown.
    destruct (_ && _); [done | reflexivity]. }
  split; [done|]. split; [done|].
  intros e p' [->|(key & shiftKey & ->)]; simpl.
  - destruct (submit_disabled p); [discriminate|].
    unfold run_handler. rewrite Hs. congruence.
  - destruct (input_disabled p); [discriminate|].
    unfold run_handler. rewrite Hk. congruence.
Qed.

Lemma C6_witness :
  ChatUI.handleFormSubmit (demo_page (js "   "))
  = (Normal None, demo_page (js "   ")).
Proof.
  destruct (C6_blank_submit_is_suppressed (demo_page (js "   ")))
    as (H & _).
  - repeat constructor.
  - exact H.
Defined.

(** ** Reading the markup of an entry *)

Lemma escaped_head s rest :
  starts_with [LF] rest = false ->
  starts_with [LF] (replace_newlines (serialize_text s) ++ rest) = false.
Proof.
  intros Hr. destruct s as [|c s]; [done|].
  unfold serialize_text. simpl flat_map. rewrite replace_newlines_app.
  unfold escape_unit.
  destruct (N.eqb_spec c AMP) as [->|Hamp]; [reflexivity|].
  destruct (N.eqb_spec c NBSP) as [->|Hnb]; [reflexivity|].
  destruct (N.eqb_spec c LT) as [->|Hlt]; [reflexivity|].
  destruct (N.eqb_spec c GT) as [->|Hgt]; [reflexivity|].
  unfold replace_newlines at 1. simpl flat_map.
  destruct (N.eqb_spec c LF) as [->|Hlf]; [reflexivity|].
  unfold starts_with. simpl. apply bool_decide_eq_false_2. congruence.
Qed.

(** The tokens of an escaped content are its code units as displayed. *)
Lemma html_tokens_escaped s rest :
  starts_with [LF] rest = false ->
  html_tokens 0 (replace_newlines (serialize_text s) ++ rest)
  = flat_map displayed s ++ html_tokens 0 rest.
Proof.
  intros Hr. unfold serialize_text.
  induction s as [|c s IH]; [done|].
  simpl flat_map. rewrite replace_newlines_app, <- !app_assoc, <- IH.
  pose proof (escaped_head s rest Hr) as Hh. unfold serialize_text in Hh.
  set (tail := replace_newlines (flat_map escape_unit s) ++ rest) in *.
  clearbody tail. unfold escape_unit, displayed.
  destruct (N.eqb_spec c AMP) as [->|Hamp]; [reflexivity|].
  destruct (N.eqb_spec c NBSP) as [->|Hnb]; [reflexivity|].
  destruct (N.eqb_spec c LT) as [->|Hlt]; [reflexivity|].
  destruct (N.eqb_spec c GT) as [->|Hgt]; [reflexivity|].
  destruct (N.eqb_spec c LF) as [->|Hlf]; [reflexivity|].
  unfold replace_newlines at 1. simpl flat_map.
  rewrite (proj2 (N.eqb_neq c LF) Hlf). simpl app. cbn [html_tokens].
  rewrite (proj2 (N.eqb_neq c LT) Hlt), (proj2 (N.eqb_neq c AMP) Hamp).
  destruct (N.eqb_spec c CR) as [->|Hcr].
  - simpl. by rewrite Hh.
  - destruct (N.eqb_spec c NUL) as [->|Hnul]; done.
Qed.

Lemma displayed_inline c :
  Forall (fun t => match t with TChar _ | TBr => True | _ => False end)
    (displayed c).
Proof.
  unfold displayed.
  destruct (c =? LF); [by repeat constructor|].
  destruct (c =? CR); [by repeat constructor|].
  destruct (c =? NUL); by repeat constructor.
Qed.

Lemma build_tree_inline l rest open cur :
  Forall (fun t => match t with TChar _ | TBr => True | _ => False end) l ->
  build_tree (l ++ rest) open cur = build_tree rest open (fold_left place l cur).
Proof.
  intros Hl. revert cur. induction Hl as [|t l Ht Hl IH]; intros cur; [done|].
  destruct t; try done; simpl; apply IH.
Qed.

Lemma build_tree_content s rest open cur :
  build_tree (flat_map displayed s ++ rest) open cur
  = build_tree rest open (fold_left place (flat_map displayed s) cur).
Proof.
  apply build_tree_inline. induction s as [|c s IH]; simpl; [constructor|].
  apply Forall_app. split; [apply displayed_inline | done].
Qed.

Lemma template_split label html :
  ChatMessage.template label html
  = ([LF] ++ js "      <div>" ++ [LF]
     ++ js "        <div class=" ++ [QUOTE] ++ js "message-label" ++ [QUOTE]
     ++ js ">" ++ label ++ js "</div>" ++ [LF]
     ++ js "        <div class=" ++ [QUOTE] ++ js "message-content" ++ [QUOTE]
     ++ js ">")
    ++ html ++ (js "</div>" ++ [LF] ++ js "      </div>" ++ [LF] ++ js "    ").
Proof. unfold ChatMessage.template. by rewrite <- !app_assoc. Qed.

(** The markup of an entry reads as the label over the content. *)
Lemma parse_template (label s : jstring) :
  label = js "You" \/ label = js "AI CHAT BOT" ->
  parse_fragment
    (ChatMessage.template label (replace_newlines (serialize_text s)))
  = Some (message_tree label (content_nodes s)).
Proof.
  intros Hl. unfold parse_fragment.
  assert (Hhead : forall X,
    build_tree
      (html_tokens 0
         (([LF] ++ js "      <div>" ++ [LF]
           ++ js "        <div class=" ++ [QUOTE] ++ js "message-label"
           ++ [QUOTE] ++ js ">" ++ label ++ js "</div>" ++ [LF]
           ++ js "        <div class=" ++ [QUOTE] ++ js "message-content"
           ++ [QUOTE] ++ js ">") ++ X)) [] []
    = build_tree (html_tokens 0 X)
        [(js "message-content",
          [NText ([LF] ++ js "        ");
           NDiv (js "message-label") [NText label];
           NText ([LF] ++ js "        ")]);
         ([], [NText ([LF] ++ js "      ")])] []).
  { intros X. destruct Hl as [-> | ->]; reflexivity. }
  rewrite template_split, Hhead.
  rewrite html_tokens_escaped by reflexivity.
  rewrite build_tree_content. reflexivity.
Qed.

Lemma inner_text_add_char c cur :
  flat_map inner_text (add_char c cur) = flat_map inner_text cur ++ [c].
Proof.
  induction cur as [|n cur IH]; [done|].
  destruct n as [s| |cl ch]; destruct cur as [|n' cur']; simpl in *;
    rewrite ?app_nil_r, ?IH, <- ?app_assoc; done.
Qed.

Lemma inner_text_place l : forall cur,
  Forall (fun t => match t with TChar _ | TBr => True | _ => False end) l ->
  flat_map inner_text (fold_left place l cur)
  = flat_map inner_text cur
    ++ flat_map (fun t => match t with TChar c => [c] | TBr => [LF] | _ => [] end) l.
Proof.
  induction l as [|t l IH]; intros cur Hl; simpl; [by rewrite app_nil_r|].
  apply Forall_cons in Hl as [Ht Hl]. rewrite IH by done.
  destruct t; try done; simpl.
  - rewrite inner_text_add_char, <- app_assoc. done.
  - rewrite flat_map_app, <- app_assoc. done.
Qed.

Lemma is_inline_add_char c cur :
  forallb is_inline cur = true -> forallb is_inline (add_char c cur) = true.
Proof.
  induction cur as [|n cur IH]; [done|].
  destruct n as [s| |cl ch]; destruct cur as [|n' cur']; simpl in *;
    try done; rewrite ?andb_true_r; try (intros H; apply IH; exact H).
Qed.

Lemma is_inline_place l : forall cur,
  forallb is_inline cur = true ->
  forallb is_inline (fold_left place l cur) = true.
Proof.
  induction l as [|t l IH]; intros cur Hc; simpl; [done|].
  apply IH. destruct t; simpl; try done.
  - by apply is_inline_add_char.
  - rewrite forallb_app, Hc. done.
Qed.

Lemma displayed_text s :
  flat_map (fun t => match t with TChar c => [c] | TBr => [LF] | _ => [] end)
    (flat_map displayed s)
  = flat_map text_unit s.
Proof.
  induction s as [|c s IH]; [done|]. simpl. rewrite flat_map_app, IH.
  f_equal. unfold displayed, text_unit.
  destruct (N.eqb_spec c LF) as [->|Hlf]; [done|].
  destruct (c =? CR); [done|]. destruct (c =? NUL); done.
Qed.

(** The content on display is text and line breaks only, and its text is
    the content, a carriage return read as a newline and U+0000 left
    out. *)
Lemma content_nodes_text s :
  forallb is_inline (content_nodes s) = true
  /\ flat_map inner_text (content_nodes s) = flat_map text_unit s.
Proof.
  unfold content_nodes. split; [by apply is_inline_place|].
  rewrite inner_text_place.
  - simpl. apply displayed_text.
  - induction s as [|c s IH]; simpl; [constructor|].
    apply Forall_app. split; [apply displayed_inline | done].
Qed.


Example parse_markup_and_newlines :
  parse_fragment
    (ChatMessage.template (js "You")
       (replace_newlines (serialize_text ([97; 60; 98; 62; 13; 10; 99; 0; 100]))))
  = Some (message_tree (js "You")
            [NText [97; 60; 98; 62; 10]; NBr; NText [99; 100]]).
Proof. vm_compute. reflexivity. Qed.


(** C5. [setLoadingState] disables or enables the submit control and the
    input field together and swaps the send icon with the spinner.  On
    every page reached from the initial one at most one request is in
    flight; while one is, the controls are disabled, the icon is hidden
    and the spinner shown, no event of the user's input path can be
    delivered, and a [submit] dispatched anyway finds the input empty and
    asks nothing; while none is, the controls are enabled.  When the
    request settles, the controls are enabled again, the icon is back and
    the spinner hidden. *)
Theorem C5_busy_disables_the_input_path (p0 : page) (es : list event) (p : page) :
  initial p0 -> steps es p0 = Some p ->
  (forall b q, loading b (snd (ChatUI.setLoadingState b q)))
  /\ (length (inflight p) <= 1)%nat
  /\ (inflight p <> [] ->
      loading true p
      /\ (forall e, user_event e -> step e p = None)
      /\ ChatUI.handleFormSubmit p = (Normal None, p))
  /\ (inflight p = [] ->
      input_disabled p = false /\ submit_disabled p = false)
  /\ (forall i o p', step (Settles i o) p = Some p' ->
      loading false p' /\ inflight p' = []).
Proof.
  intros Hi Hs.
  assert (Hinv : inv p) by (eapply inv_steps; [by apply inv_initial | done]).
  destruct Hinv as (Hlen & Hbusy & Hidle & _).
  split.
  { intros b q. destruct (setLoadingState_loading b q) as (q' & -> & H & _).
    done. }
  split; [done|]. split.
  - intros Hne. destruct (Hbusy Hne) as (Hl & Hv & _).
    split; [done|]. destruct Hl as (Hsd & Hid & _). split.
    + intros e He. destruct e; simpl in *; try done.
      * by rewrite Hid.
      * by rewrite Hid.
      * by rewrite Hsd.
    + apply handleFormSubmit_blank. by rewrite Hv.
  - split; [intros E; destruct (Hidle E) as (? & ? & _); done|].
    intros i o p' Hstep. simpl in Hstep.
    destruct (inflight p !! i) as [r|] eqn:Hr; [|discriminate].
    injection Hstep as <-. rewrite run_settled.
    split; [apply cleaned_loading|].
    replace (inflight (cleaned _)) with (delete i (inflight p)).
    + destruct (inflight p) as [|r' [|r'' l]]; simpl in Hlen; [done| |lia].
      by destruct i.
    + unfold answered. destruct (verdict o); by open_page p.
Qed.

Lemma C5_witness :
  (length (inflight (submitted (js "hi") (demo_page (js "hi")))) <= 1)%nat
  /\ step UserClicksSubmit (submitted (js "hi") (demo_page (js "hi"))) = None.
Proof.
  destruct (C5_busy_disables_the_input_path (demo_page (js "hi"))
              [UserClicksSubmit] (submitted (js "hi") (demo_page (js "hi"))))
    as (_ & Hlen & Hbusy & _ & _).
  - repeat split; reflexivity.
  - reflexivity.
  - split; [exact Hlen|].
    destruct Hbusy as (_ & Hno & _); [discriminate|].
    apply Hno. exact I.
Defined.

(** C2, as stated, fails: once the [try] block has rendered the answer,
    the typing placeholder is still in the list and the page is still
    busy. *)
Lemma C2_typing_present_after_answer_rendered :
  let p1 := submitted (js "hi") (demo_page (js "hi")) in
  let o := ChatUI.Responded true
             (Some (DObject {[ js "answer" := VString (js "X") ]})) in
  let p2 := snd (ChatUI.settle_body (js "hi") o p1) in
  ~ (has_typing p2 = true
     <-> loading true p2 /\ count is_assistant p2 = 0%nat
         /\ count is_notice p2 = 0%nat).
Proof.
  intros p1 o p2 [H _].
  assert (Ht : has_typing p2 = true) by (vm_compute; reflexivity).
  destruct (H Ht) as (_ & Ha & _). vm_compute in Ha. discriminate.
Qed.

(** C2, amended.  Between two events the typing placeholder is present
    exactly when a request is in flight.  A submission hides the welcome
    panel, appends the user's message and after it the placeholder, clears
    the input, sets the busy state and sends the question.  When the
    exchange settles, the answer or the notice is appended while the
    placeholder is still present and the page still busy; the [finally]
    block then sets the busy state to false and removes the placeholder
    last. *)
Theorem C2_typing_removed_last (p0 : page) (es : list event) (p : page) :
  initial p0 -> steps es p0 = Some p ->
  (has_typing p = true <-> inflight p <> [])
  /\ (inflight p = [] -> trim (input_value p) <> [] ->
      ChatUI.handleFormSubmit p
      = (Normal (Some (trim (input_value p))),
         submitted (trim (input_value p)) p)
      /\ has_typing (submitted (trim (input_value p)) p) = true)
  /\ (forall q o, inflight p <> [] ->
      exists el pb,
        ChatUI.settle_body q o p = (Normal tt, answered q o p)
        /\ chatMessages (answered q o p) = chatMessages p ++ [el]
        /\ has_typing (answered q o p) = true
        /\ loading true (answered q o p)
        /\ ChatUI.handleFormSubmit_settled q o p
           = ChatUI.cleanup (answered q o p)
        /\ ChatUI.setLoadingState false (answered q o p) = (Normal tt, pb)
        /\ has_typing pb = true /\ loading false pb
        /\ ChatUI.cleanup (answered q o p) = TypingIndicator.remove pb
        /\ has_typing (snd (TypingIndicator.remove pb)) = false).
Proof.
  intros Hi Hs.
  assert (Hinv : inv p) by (eapply inv_steps; [by apply inv_initial | done]).
  destruct Hinv as (Hlen & Hbusy & Hidle & _).
  split; [|split].
  - rewrite has_typing_count.
    destruct (inflight p) as [|r l] eqn:E.
    + destruct Hidle as (_ & _ & ->); done.
    + destruct Hbusy as (_ & _ & ->); done.
  - intros E Hq. split; [by apply handleFormSubmit_sends|].
    apply has_typing_count. unfold count. simpl.
    rewrite List.filter_app, length_app. simpl. lia.
  - intros q o Hne. destruct (Hbusy Hne) as (Hl & _ & Hc).
    destruct (answered_fields q o p) as (el & t & Hm & Hel & _).
    destruct (setLoadingState_loading false (answered q o p))
      as (pb & Hpb & Hlb & Hmb & _).
    assert (Hca : count is_typing (answered q o p) = 1%nat).
    { unfold count in *. rewrite Hm, count_app_one, Hel, Hc. done. }
    exists el, pb. split; [apply settle_body_run|]. split; [done|].
    split; [apply has_typing_count; lia|].
    split.
    { unfold answered, loading in *.
      destruct (verdict o); open_page p; simpl in *; done. }
    split; [by rewrite handleFormSubmit_settled_run, cleanup_run|].
    split; [done|].
    split.
    { apply has_typing_count. unfold count in *. rewrite Hmb. lia. }
    split; [done|].
    split.
    { unfold ChatUI.cleanup, bind. rewrite Hpb. done. }
    assert (Hr : chatMessages (snd (TypingIndicator.remove pb))
                 = remove_typing (chatMessages pb)).
    { unfold TypingIndicator.remove, remove_typing, bind, gets, modify, ret.
      destruct (getElementById _ _); by open_page pb. }
    destruct (has_typing _) eqn:Hh; [|done].
    apply has_typing_count in Hh. unfold count in *.
    rewrite Hr, remove_typing_count, Hmb, Hca in Hh. done.
Qed.

Lemma C2_witness :
  has_typing (submitted (js "hi") (demo_page (js "hi"))) = true
  <-> inflight (submitted (js "hi") (demo_page (js "hi"))) <> [].
Proof.
  destruct (C2_typing_removed_last (demo_page (js "hi")) [UserClicksSubmit]
              (submitted (js "hi") (demo_page (js "hi"))))
    as (H & _).
  - repeat split; reflexivity.
  - reflexivity.
  - exact H.
Defined.

(** ** Outcomes of an exchange *)

Lemma count_cleaned (f : element -> bool) p :
  (forall el, is_typing el = true -> f el = false) ->
  count f (cleaned p) = count f p.
Proof.
  intros Hf. unfold count. replace (chatMessages (cleaned p))
    with (remove_typing (chatMessages p)) by (by open_page p).
  by rewrite remove_typing_spares.
Qed.

Lemma failure_verdict o : failure o -> exists e, verdict o = inl e.
Proof.
  destruct o as [reason|ok [data|]]; simpl; intros H; subst; eauto.
  destruct (get_field data (js "error")); eauto.
Qed.

Lemma failed_counts e p :
  count is_assistant (cleaned (failed e p)) = count is_assistant p
  /\ count is_notice (cleaned (failed e p)) = S (count is_notice p).
Proof.
  rewrite !count_cleaned by auto using is_typing_assistant, is_typing_notice.
  unfold count. simpl. rewrite !count_app_one, notice_is_notice. simpl.
  split; lia.
Qed.

Lemma notice_in_cleaned e p :
  notice_element (next_uid p) ∈ chatMessages (cleaned (failed e p)).
Proof.
  replace (chatMessages (cleaned (failed e p)))
    with (remove_typing (chatMessages p ++ [notice_element (next_uid p)]))
    by (by open_page p).
  assert (H : notice_element (next_uid p)
              ∈ List.filter is_notice
                  (remove_typing (chatMessages p ++ [notice_element (next_uid p)]))).
  { rewrite remove_typing_spares by apply is_typing_notice.
    rewrite List.filter_app. apply elem_of_app. right. simpl.
    rewrite notice_is_notice. by left. }
  apply list_elem_of_In, filter_In in H as [H _]. by apply list_elem_of_In.
Qed.

(** C8. When [fetch] rejects or the status is not 2xx, the handler renders
    no assistant message and exactly one notice; its text is the fixed
    connection-failure sentence whatever the error was, the error itself
    going to the console only.  The notice comes with one timer, due 5000
    ms later: it cannot fire before, and when it fires it removes the
    notice. *)
Theorem C8_failure_shows_one_fixed_notice
    (q : jstring) (o : ChatUI.outcome) (p : page) :
  failure o ->
  exists e,
    verdict o = inl e
    /\ ChatUI.handleFormSubmit_settled q o p = (Normal tt, cleaned (failed e p))
    /\ count is_assistant (cleaned (failed e p)) = count is_assistant p
    /\ count is_notice (cleaned (failed e p)) = S (count is_notice p)
    /\ chatMessages (cleaned (failed e p))
       = remove_typing (chatMessages p ++ [notice_element (next_uid p)])
    /\ body (notice_element (next_uid p))
       = TextContent ChatUI.connection_notice
    /\ console (cleaned (failed e p)) = console p ++ [e]
    /\ conversationHistory (cleaned (failed e p)) = conversationHistory p
    /\ timers (cleaned (failed e p))
       = timers p ++ [{| due := now p + 5000;
                         action := RemoveElement (notice_element (next_uid p)) |}]
    /\ (forall t, t < now p + 5000 ->
          step (TimerFires (length (timers p))) (set_now t (cleaned (failed e p)))
          = None)
    /\ (forall t, now p + 5000 <= t ->
          exists p',
            step (TimerFires (length (timers p)))
                 (set_now t (cleaned (failed e p))) = Some p'
            /\ count is_notice p' = count is_notice p
            /\ count is_assistant p' = count is_assistant p
            /\ uncaught p' = uncaught p).
Proof.
  intros Hf. destruct (failure_verdict o Hf) as [e He]. exists e.
  destruct (failed_counts e p) as [Ha Hn].
  split; [done|].
  split.
  { rewrite handleFormSubmit_settled_run. unfold answered. by rewrite He. }
  split; [done|]. split; [done|].
  split; [by open_page p|]. split; [done|].
  split; [by open_page p|]. split; [by open_page p|].
  split; [by open_page p|].
  assert (Ht : forall t,
    timers (set_now t (cleaned (failed e p))) !! length (timers p)
    = Some (notice_timer p)).
  { intros t. replace (timers (set_now t (cleaned (failed e p))))
      with (timers p ++ [notice_timer p]) by (by open_page p).
    by rewrite lookup_app_r, Nat.sub_diag by lia. }
  split.
  - intros t Hlt. unfold step. rewrite Ht. cbn [due action notice_timer].
    replace (now (set_now t (cleaned (failed e p)))) with t by (by open_page p).
    destruct (N.leb_spec (now p + 5000) t); [lia | done].
  - intros t Hle. unfold step. rewrite Ht. cbn [due action notice_timer].
    replace (now (set_now t (cleaned (failed e p)))) with t by (by open_page p).
    destruct (N.leb_spec (now p + 5000) t); [|lia].
    eexists. split; [reflexivity|].
    unfold run_handler, modify. cbn [fst snd].
    pose proof (notice_in_cleaned e p) as Hin.
    pose proof (filter_remove_child_in is_notice _ _
                  (notice_is_notice (next_uid p)) Hin) as H1.
    pose proof (filter_remove_child_other is_assistant
                  (notice_element (next_uid p))
                  (chatMessages (cleaned (failed e p)))
                  (notice_not_assistant _)) as H2.
    unfold count in *. split; [|split].
    + replace (chatMessages _) with
        (remove_child (notice_element (next_uid p))
           (chatMessages (cleaned (failed e p)))) by (by open_page p).
      lia.
    + replace (chatMessages _) with
        (remove_child (notice_element (next_uid p))
           (chatMessages (cleaned (failed e p)))) by (by open_page p).
      rewrite H2. done.
    + by open_page p.
Qed.

Lemma C8_witness :
  exists e,
    verdict (ChatUI.Responded false
               (Some (DObject {[ js "error" := VString (js "bad question") ]})))
    = inl e
    /\ count is_notice
         (cleaned (failed e (submitted (js "hi") (demo_page (js "hi")))))
       = 1%nat.
Proof.
  destruct (C8_failure_shows_one_fixed_notice (js "hi")
              (ChatUI.Responded false
                 (Some (DObject {[ js "error" := VString (js "bad question") ]})))
              (submitted (js "hi") (demo_page (js "hi"))))
    as (e & He & _ & _ & Hn & _).
  - reflexivity.
  - exists e. split; [exact He | exact Hn].
Defined.

Lemma rendered_counts q a p :
  count is_assistant (cleaned (rendered q a p)) = S (count is_assistant p)
  /\ count is_notice (cleaned (rendered q a p)) = count is_notice p.
Proof.
  rewrite !count_cleaned by auto using is_typing_assistant, is_typing_notice.
  unfold count. simpl.
  rewrite !count_app_one, answer_is_assistant, message_not_notice.
  split; lia.
Qed.

(** C9. When the response is 2xx and its body carries the string ["X"] as
    [answer], the handler renders exactly one assistant message, shows no
    notice, and appends exactly one
    entry with the question, the answer and the time to the conversation
    history.  The markup of the message reads, in the browser, as the
    label of the assistant over the content ["X"]: text and line breaks
    whose text is ["X"], a carriage return read as a newline character
    and U+0000 left out.  No event ever removes or changes an entry of
    the history, and what an event does to the rest of the page does not
    depend on the history. *)
Theorem C9_success_renders_and_logs_once
    (q X : jstring) (fields : gmap (list N) jsval) (p : page) :
  fields !! js "answer" = Some (VString X) ->
  let o := ChatUI.Responded true (Some (DObject fields)) in
  let p' := cleaned (rendered q (VString X) p) in
  ChatUI.handleFormSubmit_settled q o p = (Normal tt, p')
  /\ chatMessages p'
     = remove_typing
         (chatMessages p ++ [message_element (next_uid p) (VString X) (js "ai")])
  /\ count is_assistant p' = S (count is_assistant p)
  /\ count is_notice p' = count is_notice p
  /\ body (message_element (next_uid p) (VString X) (js "ai"))
     = InnerHTML (ChatMessage.template (js "AI CHAT BOT")
                    (replace_newlines (serialize_text X)))
  /\ parse_fragment (ChatMessage.template (js "AI CHAT BOT")
                       (replace_newlines (serialize_text X)))
     = Some (message_tree (js "AI CHAT BOT") (content_nodes X))
  /\ forallb is_inline (content_nodes X) = true
  /\ flat_map inner_text (content_nodes X) = flat_map text_unit X
  /\ conversationHistory p'
     = conversationHistory p
       ++ [{| question := q; answer := VString X; timestamp := now p |}]
  /\ (forall e pa pb, step e pa = Some pb ->
        exists l, conversationHistory pb = conversationHistory pa ++ l)
  /\ (forall e p1 p2, same_but_history p1 p2 ->
        match step e p1, step e p2 with
        | Some a, Some b =>
          same_but_history a b
          /\ exists l, conversationHistory a = conversationHistory p1 ++ l
                       /\ conversationHistory b = conversationHistory p2 ++ l
        | None, None => True
        | _, _ => False
        end).
Proof.
  intros Hx o p'. subst o p'.
  destruct (rendered_counts q (VString X) p) as [Ha Hn].
  split.
  { rewrite handleFormSubmit_settled_run. unfold answered, verdict, get_field.
    rewrite Hx. done. }
  split; [by open_page p|]. split; [done|]. split; [done|].
  split; [done|].
  split; [apply parse_template; auto|].
  destruct (content_nodes_text X) as [Hi Ht].
  split; [done|]. split; [done|].
  split; [by open_page p|].
  split.
  - intros e pa pb H. exists (gained pa pb). by apply (step_appends e).
  - apply step_ignores_history.
Qed.

Lemma C9_witness :
  count is_assistant
    (cleaned (rendered (js "2+2?") (VString (js "4"))
                (submitted (js "2+2?") (demo_page (js "2+2?")))))
  = 1%nat.
Proof.
  destruct (C9_success_renders_and_logs_once (js "2+2?") (js "4")
              {[ js "answer" := VString (js "4") ]}
              (submitted (js "2+2?") (demo_page (js "2+2?"))))
    as (_ & _ & H & _).
  - vm_compute. reflexivity.
  - exact H.
Defined.




(** C3, as stated, fails: a 2xx body that parses to an object without
    [answer] is not reported as a failure; an assistant message is
    rendered from it and no notice is shown. *)
Lemma C3_missing_answer_is_rendered :
  let p1 := submitted (js "hi") (demo_page (js "hi")) in
  let o := ChatUI.Responded true (Some (DObject ∅)) in
  let p2 := snd (ChatUI.handleFormSubmit_settled (js "hi") o p1) in
  ~ (count is_assistant p2 = count is_assistant p1
     /\ count is_notice p2 = S (count is_notice p1)).
Proof.
  intros p1 o p2 [Ha _]. vm_compute in Ha. discriminate.
Qed.

(** C3, amended.  A 2xx response whose body does not parse, or parses to
    [null], ends as a rejected [fetch] does: no assistant message, the
    fixed notice, the history unchanged, the page equal up to the error
    written to the console.  A 2xx body that parses to anything else and
    has no [answer] is not a failure: one assistant message with empty
    content is rendered, no notice is shown, and an entry whose answer is
    [undefined] is appended to the history. *)
Theorem C3_malformed_success_body
    (q : jstring) (json : option json_data) (p : page) :
  (json = None \/ json = Some DNull ->
   exists e,
     ChatUI.handleFormSubmit_settled q (ChatUI.Responded true json) p
     = (Normal tt, cleaned (failed e p))
     /\ (forall reason,
           ChatUI.handleFormSubmit_settled q (ChatUI.Rejected reason) p
           = (Normal tt, cleaned (failed (FetchRejected reason) p))
           /\ set_console [] (cleaned (failed e p))
              = set_console [] (cleaned (failed (FetchRejected reason) p)))
     /\ count is_assistant (cleaned (failed e p)) = count is_assistant p
     /\ count is_notice (cleaned (failed e p)) = S (count is_notice p)
     /\ conversationHistory (cleaned (failed e p)) = conversationHistory p)
  /\ (forall data,
        json = Some data -> get_field data (js "answer") = inr VUndefined ->
        let p' := cleaned (rendered q VUndefined p) in
        ChatUI.handleFormSubmit_settled q (ChatUI.Responded true json) p
        = (Normal tt, p')
        /\ chatMessages p'
           = remove_typing
               (chatMessages p
                  ++ [{| uid := next_uid p;
                         className := js "message message-ai";
                         id_attr := [];
                         body := InnerHTML
                           (ChatMessage.template (js "AI CHAT BOT") []) |}])
        /\ count is_assistant p' = S (count is_assistant p)
        /\ count is_notice p' = count is_notice p
        /\ conversationHistory p'
           = conversationHistory p
             ++ [{| question := q; answer := VUndefined; timestamp := now p |}]).
Proof.
  split.
  - intros Hj.
    assert (He : exists e, verdict (ChatUI.Responded true json) = inl e).
    { destruct Hj as [->| ->]; simpl; eauto. }
    destruct He as [e He]. exists e.
    destruct (failed_counts e p) as [Ha Hn].
    split.
    { rewrite handleFormSubmit_settled_run. unfold answered. by rewrite He. }
    split.
    { intros reason. split; [by rewrite handleFormSubmit_settled_run|].
      by open_page p. }
    split; [done|]. split; [done|]. by open_page p.
  - intros data -> Hd p'. subst p'.
    destruct (rendered_counts q VUndefined p) as [Ha Hn].
    split.
    { rewrite handleFormSubmit_settled_run. unfold answered, verdict.
      by rewrite Hd. }
    split; [by open_page p|]. split; [done|]. split; [done|]. by open_page p.
Qed.

Lemma C3_witness :
  count is_assistant
    (cleaned (rendered (js "hi") VUndefined
                (submitted (js "hi") (demo_page (js "hi")))))
  = 1%nat.
Proof.
  destruct (C3_malformed_success_body (js "hi") (Some (DObject ∅))
              (submitted (js "hi") (demo_page (js "hi"))))
    as (_ & H).
  destruct (H (DObject ∅)) as (_ & _ & Hc & _).
  - reflexivity.
  - vm_compute. reflexivity.
  - exact Hc.
Defined.

(** ** Timers *)

(** The closure of an error notice never throws, and leaves the message
    list alone when its element is no longer in it. *)
Lemma notice_callback_tolerates_missing_element el p :
  exists p', run_callback (RemoveElement el) p = (Normal tt, p')
    /\ (el ∉ chatMessages p -> p' = p).
Proof.
  eexists. split; [reflexivity|]. intros Hn.
  assert (H : forall l, el ∉ l -> remove_child el l = l).
  { induction l as [|x l IH]; [done|]. intros Hx. simpl.
    apply not_elem_of_cons in Hx as [Hx1 Hx2].
    rewrite bool_decide_eq_false_2 by congruence. by rewrite IH. }
  rewrite H by done. by open_page p.
Qed.

(** The scroll closure does not throw when [querySelector] had found a
    container, and changes nothing when that container is no longer the
    one of the page. *)
Lemma scroll_callback_tolerates_detached_container u p :
  exists p', run_callback (ScrollDown (Some u)) p = (Normal tt, p')
    /\ ((forall c, chatMain p = Some c -> sc_uid c <> u) -> p' = p).
Proof.
  eexists. split; [reflexivity|]. intros Hn. unfold scroll_to_end.
  destruct (chatMain p) as [c|] eqn:E; [|done].
  destruct (Nat.eqb_spec (sc_uid c) u) as [Hu|]; [|done].
  by destruct (Hn c eq_refl).
Qed.

(** C4 fails for the scroll timer: when the answer arrives after the
    container [".chat-main"] has left the document, [scrollToBottom]
    captures [null], and the closure throws [TypeError] when the timer
    fires. *)
Theorem C4_scroll_timer_faults_without_container :
  let o := ChatUI.Responded true
             (Some (DObject {[ js "answer" := VString (js "4") ]})) in
  exists p,
    steps [UserClicksSubmit; HostChangesChatMain None; Settles 0 o;
           TimePasses 100; TimerFires 1] (demo_page (js "2+2?")) = Some p
    /\ uncaught p = [TypeError]
    /\ (forall q, run_callback (ScrollDown None) q = (Throw TypeError, q)).
Proof.
  intros o. eexists. split; [vm_compute; reflexivity|].
  split; reflexivity.
Qed.

(** * Further properties of the code *)

(** ** The question that is sent *)

Lemma trimStart_split s :
  exists a, s = a ++ trimStart s /\ whitespace_only a.
Proof.
  induction s as [|c s (a & Ha & Hw)]; simpl.
  - exists []. split; [done | constructor].
  - destruct (is_whitespace c) eqn:E.
    + exists (c :: a). split; [simpl; congruence | by constructor].
    + exists []. split; [done | constructor].
Qed.

Lemma trimStart_fixed c r :
  is_whitespace c = false -> trimStart (c :: r) = c :: r.
Proof. simpl. by intros ->. Qed.

Lemma trimStart_snoc s c :
  is_whitespace c = false -> trimStart (s ++ [c]) = trimStart s ++ [c].
Proof.
  intros Hc. induction s as [|d s IH]; simpl; [by rewrite Hc|].
  destruct (is_whitespace d); done.
Qed.

Lemma trimEnd_cons c r :
  is_whitespace c = false -> trimEnd (c :: r) = c :: trimEnd r.
Proof.
  intros Hc. unfold trimEnd. simpl. rewrite trimStart_snoc by done.
  by rewrite rev_app_distr.
Qed.

Lemma trimEnd_split s :
  exists b, s = trimEnd s ++ b /\ whitespace_only b.
Proof.
  unfold trimEnd. destruct (trimStart_split (rev s)) as (a & Ha & Hw).
  exists (rev a). split.
  - rewrite <- rev_app_distr, <- Ha. by rewrite rev_involutive.
  - unfold whitespace_only in *. rewrite Forall_forall in *.
    intros c Hc. apply Hw. apply list_elem_of_In. apply list_elem_of_In in Hc.
    by apply in_rev.
Qed.

Lemma trimEnd_last s r c :
  trimEnd s = r ++ [c] -> is_whitespace c = false.
Proof.
  unfold trimEnd. intros H. apply (f_equal (@rev N)) in H.
  rewrite rev_involutive, rev_app_distr in H. simpl in H.
  by apply trimStart_head in H.
Qed.

Lemma trimEnd_fixed r c :
  is_whitespace c = false -> trimEnd (r ++ [c]) = r ++ [c].
Proof.
  intros Hc. unfold trimEnd. rewrite rev_app_distr. simpl. rewrite Hc.
  change (c :: rev r) with ([c] ++ rev r).
  by rewrite rev_app_distr, rev_involutive.
Qed.

Lemma trim_head s c r : trim s = c :: r -> is_whitespace c = false.
Proof.
  unfold trim. destruct (trimStart s) as [|d t] eqn:E; [discriminate|].
  pose proof (trimStart_head _ _ _ E) as Hd.
  rewrite trimEnd_cons by done. congruence.
Qed.

Lemma trim_idempotent s : trim (trim s) = trim s.
Proof.
  destruct (trim s) as [|c r] eqn:E; [done|].
  pose proof (trim_head _ _ _ E) as Hc.
  unfold trim at 1. rewrite trimStart_fixed by done.
  destruct (@exists_last _ (c :: r)) as (r' & c' & E'); [done|].
  rewrite E'. rewrite E' in E. unfold trim in E.
  apply trimEnd_last in E. by apply trimEnd_fixed.
Qed.

(** X1. The question that [handleFormSubmit] sends, renders and waits
    for is the input without the white space around it: the input is
    the question between two runs of white space, the question begins
    and ends with a code unit that is not white space, and trimming it
    again changes nothing.  White space inside the question is kept. *)
Theorem question_is_input_without_surrounding_space (p : page) :
  trim (input_value p) <> [] ->
  exists q a b,
    ChatUI.handleFormSubmit p = (Normal (Some q), submitted q p)
    /\ input_value p = a ++ q ++ b
    /\ whitespace_only a /\ whitespace_only b
    /\ (exists c r, q = c :: r /\ is_whitespace c = false)
    /\ (exists r c, q = r ++ [c] /\ is_whitespace c = false)
    /\ trim q = q
    /\ inflight (submitted q p) = inflight p ++ [sent q]
    /\ shown q (submitted q p).
Proof.
  intros H. exists (trim (input_value p)).
  destruct (trimStart_split (input_value p)) as (a & Ha & Hwa).
  destruct (trimEnd_split (trimStart (input_value p))) as (b & Hb & Hwb).
  exists a, b.
  split; [by apply handleFormSubmit_sends|].
  split; [unfold trim; rewrite <- Hb; done|].
  split; [done|]. split; [done|].
  split.
  { destruct (trim (input_value p)) as [|c r] eqn:E; [done|].
    exists c, r. split; [done|]. by apply (trim_head (input_value p) c r). }
  split.
  { destruct (@exists_last _ (trim (input_value p))) as (r & c & E); [done|].
    exists r, c. split; [done|]. unfold trim in E. by apply trimEnd_last in E. }
  split; [apply trim_idempotent|]. split; [done|].
  exists (next_uid p). simpl. apply elem_of_app. right. by left.
Qed.

Lemma question_witness :
  exists q a b,
    input_value (demo_page (js "  what is  2+2? ")) = a ++ q ++ b
    /\ whitespace_only a /\ whitespace_only b /\ trim q = q.
Proof.
  destruct (question_is_input_without_surrounding_space
              (demo_page (js "  what is  2+2? ")))
    as (q & a & b & _ & H1 & H2 & H3 & _ & _ & H4 & _).
  - vm_compute. discriminate.
  - exists q, a, b. repeat split; assumption.
Defined.

(** ** What the console receives *)

Lemma settled_console q o p :
  console (cleaned (answered q o p))
  = console p ++ match verdict o with inl e => [e] | inr _ => [] end.
Proof.
  unfold answered. destruct (verdict o); open_page p; simpl;
    [done | by rewrite app_nil_r].
Qed.

(** X2. The detail of a failed request goes to the console and nowhere
    else.  For a response that is not 2xx the logged error carries the
    [error] field of the body when that is a non-empty string; the
    fallback text when the field is absent, [null] or empty; and when the
    body does not parse, or parses to [null], the parse error or the
    [TypeError] instead of either.  The notice on display is the same in
    all these cases. *)
Theorem error_detail_is_logged_only (q : jstring) (json : option json_data) (p : page) :
  let p' := snd (ChatUI.handleFormSubmit_settled q (ChatUI.Responded false json) p) in
  (forall fields d,
     json = Some (DObject fields) -> fields !! js "error" = Some (VString d) ->
     d <> [] -> console p' = console p ++ [Error d])
  /\ (forall data v,
        json = Some data -> get_field data (js "error") = inr v ->
        truthy_val v = false ->
        console p' = console p ++ [Error (js "Failed to get answer")])
  /\ (json = None -> console p' = console p ++ [SyntaxError])
  /\ (json = Some DNull -> console p' = console p ++ [TypeError])
  /\ chatMessages p'
     = remove_typing (chatMessages p ++ [notice_element (next_uid p)]).
Proof.
  intros p'. subst p'. rewrite handleFormSubmit_settled_run. cbn [snd].
  rewrite settled_console.
  split; [|split; [|split; [|split]]].
  - intros fields d -> Hf Hd. simpl. rewrite Hf. simpl.
    rewrite bool_decide_eq_false_2 by done. done.
  - intros data v -> Hv Ht. simpl. rewrite Hv, Ht. done.
  - intros ->. done.
  - intros ->. done.
  - destruct (failure_verdict (ChatUI.Responded false json) eq_refl) as [e He].
    unfold answered. rewrite He. by open_page p.
Qed.

(** ** The welcome panel *)

Lemma welcome_after_settled q o p :
  welcomeScreen (cleaned (answered q o p)) = welcomeScreen p.
Proof. unfold answered. destruct (verdict o); by open_page p. Qed.

Lemma welcome_step e p p' :
  step e p = Some p' ->
  welcomeScreen p' = welcomeScreen p
  \/ (is_Some (welcomeScreen p) /\ welcomeScreen p' = Some (js "none")).
Proof.
  intros H. destruct e as [text m|key shift| |i o|i|dt|c]; simpl in H.
  - destruct (input_disabled p); [discriminate|]. injection H as <-.
    left. by open_page p.
  - destruct (input_disabled p); [discriminate|]. injection H as <-.
    rewrite run_handleKeyDown, run_handleFormSubmit.
    destruct (_ && _); [|by left]. case_bool_decide; [by left|].
    simpl. destruct (welcomeScreen p); [right; eauto | by left].
  - destruct (submit_disabled p); [discriminate|]. injection H as <-.
    rewrite run_handleFormSubmit. case_bool_decide; [by left|].
    simpl. destruct (welcomeScreen p); [right; eauto | by left].
  - destruct (inflight p !! i); [|discriminate]. injection H as <-.
    rewrite run_settled, welcome_after_settled. left. by open_page p.
  - destruct (timers p !! i) as [t|]; [|discriminate].
    destruct (due t <=? now p); [|discriminate]. injection H as <-.
    left. unfold run_handler, run_callback.
    destruct (action t) as [el|[u|]]; unfold modify, throw, scroll_to_end;
      open_page p; simpl; [done| |done].
    destruct cmain as [c|]; [destruct (Nat.eqb _ _)|]; done.
  - injection H as <-. left. by open_page p.
  - injection H as <-. left. by open_page p.
Qed.

(** X3. The welcome panel is hidden by the first question that is sent
    and nothing shows it again: once its display is ["none"] it stays so
    through every later event, and a page without a welcome panel goes
    through every event without one and without an error. *)
Theorem welcome_panel_stays_hidden (es : list event) (p p' : page) :
  steps es p = Some p' ->
  (welcomeScreen p = Some (js "none") -> welcomeScreen p' = Some (js "none"))
  /\ (welcomeScreen p = None -> welcomeScreen p' = None)
  /\ (forall p1, trim (input_value p') <> [] ->
        step UserClicksSubmit p' = Some p1 ->
        welcomeScreen p1 = (fun _ => js "none") <$> welcomeScreen p').
Proof.
  intros H. split; [|split].
  - revert p H. induction es as [|e es IH]; simpl; intros p H Hw.
    + by injection H as <-.
    + destruct (step e p) as [p1|] eqn:E; [|discriminate].
      apply (IH p1 H). destruct (welcome_step e p p1 E) as [->|[_ ->]]; done.
  - revert p H. induction es as [|e es IH]; simpl; intros p H Hw.
    + by injection H as <-.
    + destruct (step e p) as [p1|] eqn:E; [|discriminate].
      apply (IH p1 H). destruct (welcome_step e p p1 E) as [->|[Hs _]]; [done|].
      rewrite Hw in Hs. by destruct Hs.
  - intros p1 Hq Hs. simpl in Hs.
    destruct (submit_disabled p'); [discriminate|]. injection Hs as <-.
    rewrite run_handleFormSubmit, bool_decide_eq_false_2 by done.
    simpl. by destruct (welcomeScreen p').
Qed.

Lemma welcome_witness :
  welcomeScreen
    (cleaned (answered (js "hi") (ChatUI.Rejected (js "down"))
                (set_inflight [] (submitted (js "hi") (demo_page (js "hi"))))))
  = Some (js "none").
Proof.
  destruct (welcome_panel_stays_hidden
              [Settles 0 (ChatUI.Rejected (js "down"))]
              (submitted (js "hi") (demo_page (js "hi")))
              (cleaned (answered (js "hi") (ChatUI.Rejected (js "down"))
                          (set_inflight []
                             (submitted (js "hi") (demo_page (js "hi")))))))
    as (H & _).
  - vm_compute. reflexivity.
  - apply H. reflexivity.
Defined.

(** ** The shape of a step *)

Lemma run_callback_run a p :
  run_handler (run_callback a) p
  = match a with
    | RemoveElement el => set_chatMessages (remove_child el (chatMessages p)) p
    | ScrollDown None => set_uncaught (uncaught p ++ [TypeError]) p
    | ScrollDown (Some u) => scroll_to_end u p
    end.
Proof. destruct a as [el|[u|]]; reflexivity. Qed.

Lemma step_shape e p p' :
  step e p = Some p' ->
  match e with
  | UserTypes text m =>
    input_disabled p = false
    /\ p' = set_input_height (Some m) (set_input_height None (set_input_value text p))
  | UserKeyDown _ _ =>
    input_disabled p = false
    /\ (p' = p \/ (trim (input_value p) <> []
                   /\ p' = submitted (trim (input_value p)) p))
  | UserClicksSubmit =>
    submit_disabled p = false
    /\ (p' = p \/ (trim (input_value p) <> []
                   /\ p' = submitted (trim (input_value p)) p))
  | Settles i o =>
    exists r, inflight p !! i = Some r
      /\ p' = cleaned (answered (asked r) o
                         (set_inflight (delete i (inflight p)) p))
  | TimerFires i =>
    exists t, timers p !! i = Some t /\ due t <= now p
      /\ p' = run_handler (run_callback (action t))
                (set_timers (delete i (timers p)) p)
  | TimePasses dt => p' = set_now (now p + dt) p
  | HostChangesChatMain c => p' = set_chatMain c p
  end.
Proof.
  intros H. destruct e as [text m|key shift| |i o|i|dt|c]; simpl in H.
  - destruct (input_disabled p); [discriminate|]. injection H as <-. done.
  - destruct (input_disabled p); [discriminate|]. injection H as <-.
    split; [done|]. rewrite run_handleKeyDown, run_handleFormSubmit.
    destruct (_ && _); [|by left]. case_bool_decide; [by left | by right].
  - destruct (submit_disabled p); [discriminate|]. injection H as <-.
    split; [done|]. rewrite run_handleFormSubmit.
    case_bool_decide; [by left | by right].
  - destruct (inflight p !! i) as [r|]; [|discriminate]. injection H as <-.
    exists r. by rewrite run_settled.
  - destruct (timers p !! i) as [t|]; [|discriminate].
    destruct (N.leb_spec (due t) (now p)); [|discriminate].
    injection H as <-. by exists t.
  - by injection H as <-.
  - by injection H as <-.
Qed.

Lemma chatMessages_scroll_to_end u p :
  chatMessages (scroll_to_end u p) = chatMessages p
  /\ timers (scroll_to_end u p) = timers p
  /\ conversationHistory (scroll_to_end u p) = conversationHistory p
  /\ inflight (scroll_to_end u p) = inflight p
  /\ uncaught (scroll_to_end u p) = uncaught p
  /\ (chatMain p <> None -> chatMain (scroll_to_end u p) <> None).
Proof.
  unfold scroll_to_end. destruct (chatMain p) as [c|] eqn:E;
    [destruct (Nat.eqb _ _)|]; rewrite ?E; repeat split; try done;
    by open_page p.
Qed.

(** ** Timers *)

(** X4. Timers are single-shot and never cancelled.  Every event other
    than the firing of a timer leaves the pending timers in place and at
    most adds new ones behind them, each due no earlier than 100 ms
    later; the firing of a timer takes exactly that timer off the list
    and schedules nothing. *)
Theorem timers_fire_once_and_are_never_cancelled (e : event) (p p' : page) :
  step e p = Some p' ->
  match e with
  | TimerFires i => timers p' = delete i (timers p)
  | _ => exists l, timers p' = timers p ++ l
           /\ Forall (fun t => now p + 100 <= due t) l
  end.
Proof.
  intros H. apply step_shape in H.
  destruct e as [text m|key shift| |i o|i|dt|c].
  - destruct H as [_ ->]. exists []. rewrite app_nil_r. split; [by open_page p|done].
  - destruct H as [_ [->|[_ ->]]].
    + exists []. by rewrite app_nil_r.
    + exists [scroll_timer p]. split; [done|]. repeat constructor. simpl. lia.
  - destruct H as [_ [->|[_ ->]]].
    + exists []. by rewrite app_nil_r.
    + exists [scroll_timer p]. split; [done|]. repeat constructor. simpl. lia.
  - destruct H as (r & _ & ->). unfold answered.
    destruct (verdict o) as [err|a].
    + exists [notice_timer p]. split; [by open_page p|].
      repeat constructor. simpl. lia.
    + exists [scroll_timer p]. split; [by open_page p|].
      repeat constructor. simpl. lia.
  - destruct H as (t & _ & _ & ->). rewrite run_callback_run.
    destruct (action t) as [el|[u|]]; try by open_page p.
    by destruct (chatMessages_scroll_to_end u (set_timers (delete i (timers p)) p))
      as (_ & -> & _).
  - subst p'. exists []. rewrite app_nil_r. split; [by open_page p|done].
  - subst p'. exists []. rewrite app_nil_r. split; [by open_page p|done].
Qed.

Lemma timers_witness :
  let p := set_now 100 (submitted (js "hi") (demo_page (js "hi"))) in
  timers (scroll_to_end 0 (set_timers [] p)) = delete 0%nat (timers p).
Proof.
  intros p.
  assert (H : step (TimerFires 0) p = Some (scroll_to_end 0 (set_timers [] p)))
    by (vm_compute; reflexivity).
  exact (timers_fire_once_and_are_never_cancelled (TimerFires 0) p _ H).
Defined.

(** ** The transcript *)

Lemma is_notice_assistant el : is_notice el = true -> is_assistant el = false.
Proof.
  unfold is_notice. intros H. apply bool_decide_eq_true_1 in H.
  rewrite H. reflexivity.
Qed.

Lemma is_notice_message el : is_notice el = true -> is_message el = false.
Proof. unfold is_message. intros ->. apply andb_false_r. Qed.

Lemma is_typing_message el : is_typing el = true -> is_message el = false.
Proof. unfold is_message. by intros ->. Qed.

Lemma message_is_message u c s : is_message (message_element u c s) = true.
Proof. unfold is_message. by rewrite message_not_typing, message_not_notice. Qed.

Lemma notice_not_message u : is_message (notice_element u) = false.
Proof. apply is_notice_message, notice_is_notice. Qed.

Lemma question_not_assistant u c :
  is_assistant (message_element u c (js "user")) = false.
Proof. reflexivity. Qed.

Lemma filter_app_one (f : element -> bool) l el :
  List.filter f (l ++ [el]) = List.filter f l ++ (if f el then [el] else []).
Proof. rewrite List.filter_app. simpl. by destruct (f el). Qed.

Lemma cleaned_fields p :
  timers (cleaned p) = timers p
  /\ conversationHistory (cleaned p) = conversationHistory p
  /\ inflight (cleaned p) = inflight p
  /\ uncaught (cleaned p) = uncaught p
  /\ chatMain (cleaned p) = chatMain p
  /\ chatMessages (cleaned p) = remove_typing (chatMessages p).
Proof. by open_page p. Qed.

(** What one step does to the messages, the assistant messages and the
    history, as long as no pending timer aims at a message. *)
Lemma step_transcript e p p' :
  Forall aims_at_notice (timers p) -> step e p = Some p' ->
  Forall aims_at_notice (timers p')
  /\ (exists l, transcript p' = transcript p ++ l)
  /\ (count is_assistant p' + length (conversationHistory p)
      = count is_assistant p + length (conversationHistory p'))%nat.
Proof.
  intros Ht H. apply step_shape in H. unfold transcript, count.
  assert (Hsub : forall q,
    Forall aims_at_notice (timers (submitted q p))
    /\ (exists l, List.filter is_message (chatMessages (submitted q p))
                  = List.filter is_message (chatMessages p) ++ l)
    /\ (length (List.filter is_assistant (chatMessages (submitted q p)))
        + length (conversationHistory p)
        = length (List.filter is_assistant (chatMessages p))
          + length (conversationHistory (submitted q p)))%nat).
  { intros q. simpl. split; [|split].
    - apply Forall_app. split; [done|]. repeat constructor.
    - rewrite List.filter_app. eauto.
    - rewrite List.filter_app, length_app. simpl. lia. }
  destruct e as [text m|key shift| |i o|i|dt|c].
  - destruct H as [_ ->]. split; [by open_page p|].
    split; [exists []; rewrite app_nil_r; by open_page p | by open_page p].
  - destruct H as [_ [->|[_ ->]]]; [|apply Hsub].
    split; [done|]. split; [exists []; by rewrite app_nil_r | done].
  - destruct H as [_ [->|[_ ->]]]; [|apply Hsub].
    split; [done|]. split; [exists []; by rewrite app_nil_r | done].
  - destruct H as (r & _ & ->).
    destruct (cleaned_fields
                (answered (asked r) o (set_inflight (delete i (inflight p)) p)))
      as (-> & -> & _ & _ & _ & ->).
    rewrite !remove_typing_spares
      by auto using is_typing_message, is_typing_assistant.
    unfold answered. destruct (verdict o) as [err|a]; cbn [failed rendered
      chatMessages timers conversationHistory next_uid now set_timers
      set_chatMessages set_next_uid set_console set_conversationHistory
      set_inflight].
    + split; [|split].
      * apply Forall_app. split; [done|]. repeat constructor.
        apply notice_is_notice.
      * rewrite filter_app_one, notice_not_message. eauto.
      * rewrite count_app_one, notice_not_assistant. lia.
    + split; [|split].
      * apply Forall_app. split; [done|]. repeat constructor.
      * rewrite filter_app_one. eauto.
      * rewrite count_app_one, answer_is_assistant, length_app. simpl. lia.
  - destruct H as (t & Hi & _ & ->). rewrite run_callback_run.
    assert (Hd : Forall aims_at_notice (delete i (timers p))).
    { apply Forall_forall. intros x Hx. rewrite Forall_forall in Ht.
      apply Ht. by eapply list_elem_of_delete_inv. }
    assert (Ha : aims_at_notice t).
    { rewrite Forall_forall in Ht. apply Ht. by eapply list_elem_of_lookup_2. }
    unfold aims_at_notice in Ha.
    destruct (action t) as [el|[u|]].
    + split; [by open_page p|].
      replace (chatMessages _) with (remove_child el (chatMessages p))
        by (by open_page p).
      rewrite !filter_remove_child_other
        by auto using is_notice_message, is_notice_assistant.
      split; [exists []; by rewrite app_nil_r | by open_page p].
    + destruct (chatMessages_scroll_to_end u (set_timers (delete i (timers p)) p))
        as (-> & -> & -> & _).
      split; [by open_page p|].
      split; [exists []; rewrite app_nil_r; by open_page p | by open_page p].
    + split; [by open_page p|].
      split; [exists []; rewrite app_nil_r; by open_page p | by open_page p].
  - subst p'. split; [by open_page p|].
    split; [exists []; rewrite app_nil_r; by open_page p | by open_page p].
  - subst p'. split; [by open_page p|].
    split; [exists []; rewrite app_nil_r; by open_page p | by open_page p].
Qed.

Lemma steps_transcript es : forall p p',
  Forall aims_at_notice (timers p) -> steps es p = Some p' ->
  Forall aims_at_notice (timers p')
  /\ (exists l, transcript p' = transcript p ++ l)
  /\ (count is_assistant p' + length (conversationHistory p)
      = count is_assistant p + length (conversationHistory p'))%nat.
Proof.
  induction es as [|e es IH]; simpl; intros p p' Ht H.
  - injection H as <-. split; [done|].
    split; [exists []; by rewrite app_nil_r | done].
  - destruct (step e p) as [p1|] eqn:E; [|discriminate].
    destruct (step_transcript e p p1 Ht E) as (Ht1 & [l1 Hl1] & Hc1).
    destruct (IH p1 p' Ht1 H) as (Ht' & [l Hl] & Hc).
    split; [done|]. split; [|lia].
    exists (l1 ++ l). by rewrite Hl, Hl1, app_assoc.
Qed.

(** X5. No message of the conversation is ever removed, changed or moved:
    once the controller starts with no timer pending, the messages on
    display after any sequence of events are the messages that were there
    before, in the same order, followed by the new ones.  Only typing
    placeholders and connection notices leave the list. *)
Theorem messages_are_only_appended (es : list event) (p0 p : page) :
  timers p0 = [] -> steps es p0 = Some p ->
  exists l, transcript p = transcript p0 ++ l.
Proof.
  intros Ht H.
  destruct (steps_transcript es p0 p) as (_ & Hl & _); [by rewrite Ht | done | done].
Qed.

Lemma messages_witness :
  exists l,
    transcript (submitted (js "hi") (demo_page (js "hi")))
    = transcript (demo_page (js "hi")) ++ l.
Proof.
  apply (messages_are_only_appended [UserClicksSubmit]).
  - reflexivity.
  - reflexivity.
Defined.

(** X6. The history has one entry for every assistant message: over any
    sequence of events, the number of entries added to the history equals
    the number of assistant messages added to the display. *)
Theorem one_history_entry_per_assistant_message (es : list event) (p0 p : page) :
  timers p0 = [] -> steps es p0 = Some p ->
  (count is_assistant p + length (conversationHistory p0)
   = count is_assistant p0 + length (conversationHistory p))%nat.
Proof.
  intros Ht H.
  destruct (steps_transcript es p0 p) as (_ & _ & Hc); [by rewrite Ht | done | done].
Qed.

Lemma history_count_witness :
  let o := ChatUI.Responded true
             (Some (DObject {[ js "answer" := VString (js "4") ]})) in
  let p := cleaned (answered (js "2+2?") o
                      (set_inflight [] (submitted (js "2+2?") (demo_page (js "2+2?"))))) in
  (count is_assistant p + 0 = 0 + length (conversationHistory p))%nat.
Proof.
  intros o p.
  assert (H : steps [UserClicksSubmit; Settles 0 o] (demo_page (js "2+2?")) = Some p)
    by (vm_compute; reflexivity).
  exact (one_history_entry_per_assistant_message
           [UserClicksSubmit; Settles 0 o] (demo_page (js "2+2?")) p eq_refl H).
Defined.

(** ** Questions asked and questions on display *)

Lemma shown_step e p p' q :
  Forall aims_at_notice (timers p) -> step e p = Some p' ->
  shown q p -> shown q p'.
Proof.
  intros Ht H [u Hu].
  destruct (step_transcript e p p' Ht H) as (_ & [l Hl] & _).
  exists u.
  assert (Hin : message_element u (VString q) (js "user") ∈ transcript p').
  { rewrite Hl. apply elem_of_app. left. unfold transcript.
    apply list_elem_of_In, filter_In. split; [by apply list_elem_of_In|].
    apply message_is_message. }
  unfold transcript in Hin. apply list_elem_of_In, filter_In in Hin as [Hin _].
  by apply list_elem_of_In.
Qed.

Lemma asked_are_shown_step e p p' :
  Forall aims_at_notice (timers p) -> step e p = Some p' ->
  asked_are_shown p -> asked_are_shown p'.
Proof.
  intros Ht H [Hi Hh].
  assert (Hkeep : forall q, shown q p -> shown q p')
    by (intros q; by apply (shown_step e)).
  pose proof H as Hs. apply step_shape in Hs.
  assert (Hsub : forall q, p' = submitted q p -> asked_are_shown p').
  { intros q E. split.
    - intros r Hr. rewrite E in Hr. simpl in Hr.
      apply elem_of_app in Hr as [Hr|Hr].
      + apply Hkeep. by apply Hi.
      + apply list_elem_of_singleton in Hr as ->. rewrite E.
        exists (next_uid p). simpl. apply elem_of_app. right. by left.
    - intros h Hin. rewrite E in Hin. simpl in Hin. apply Hkeep. by apply Hh. }
  assert (Hsame : inflight p' = inflight p ->
                  conversationHistory p' = conversationHistory p ->
                  asked_are_shown p').
  { intros E1 E2. split.
    - intros r Hr. rewrite E1 in Hr. apply Hkeep. by apply Hi.
    - intros h Hin. rewrite E2 in Hin. apply Hkeep. by apply Hh. }
  destruct e as [text m|key shift| |i o|i|dt|c].
  - destruct Hs as [_ ->]. apply Hsame; by open_page p.
  - destruct Hs as [_ [->|[_ Hs]]]; [by split | by eapply Hsub].
  - destruct Hs as [_ [->|[_ Hs]]]; [by split | by eapply Hsub].
  - destruct Hs as (r & Hr & Hs). split.
    + intros r' Hr'. apply Hkeep. apply Hi.
      rewrite Hs in Hr'.
      destruct (cleaned_fields
                  (answered (asked r) o (set_inflight (delete i (inflight p)) p)))
        as (_ & _ & E & _). rewrite E in Hr'.
      assert (E' : inflight (answered (asked r) o
                               (set_inflight (delete i (inflight p)) p))
                   = delete i (inflight p)).
      { unfold answered. destruct (verdict o); by open_page p. }
      rewrite E' in Hr'. by eapply list_elem_of_delete_inv.
    + intros h Hin. rewrite Hs in Hin.
      destruct (cleaned_fields
                  (answered (asked r) o (set_inflight (delete i (inflight p)) p)))
        as (_ & E & _). rewrite E in Hin.
      unfold answered in Hin. destruct (verdict o) as [err|a].
      * apply Hkeep, Hh. revert Hin. by open_page p.
      * assert (E' : conversationHistory
                       (rendered (asked r) a
                          (set_inflight (delete i (inflight p)) p))
                     = conversationHistory p
                       ++ [{| question := asked r; answer := a;
                              timestamp := now p |}]) by (by open_page p).
        rewrite E' in Hin. apply elem_of_app in Hin as [Hin|Hin].
        -- apply Hkeep. by apply Hh.
        -- apply list_elem_of_singleton in Hin as ->. simpl.
           apply Hkeep, Hi. by eapply list_elem_of_lookup_2.
  - destruct Hs as (t & _ & _ & ->). rewrite run_callback_run in *.
    apply Hsame.
    + destruct (action t) as [el|[u|]]; try by open_page p.
      by destruct (chatMessages_scroll_to_end u
                     (set_timers (delete i (timers p)) p)) as (_ & _ & _ & -> & _).
    + destruct (action t) as [el|[u|]]; try by open_page p.
      by destruct (chatMessages_scroll_to_end u
                     (set_timers (delete i (timers p)) p)) as (_ & _ & -> & _).
  - subst p'. apply Hsame; by open_page p.
  - subst p'. apply Hsame; by open_page p.
Qed.

(** X7. Every question the controller has asked was shown to the user:
    starting from a fresh controller (nothing in flight, no history, no
    timer), after any sequence of events each request in flight and each
    entry of the history has its question on display as a message of the
    user. *)
Theorem asked_questions_are_on_display (es : list event) (p0 p : page) :
  timers p0 = [] -> inflight p0 = [] -> conversationHistory p0 = [] ->
  steps es p0 = Some p ->
  (forall r, r ∈ inflight p -> shown (asked r) p)
  /\ (forall h, h ∈ conversationHistory p -> shown (question h) p).
Proof.
  intros Ht Hi Hh H.
  assert (H0 : Forall aims_at_notice (timers p0) /\ asked_are_shown p0).
  { rewrite Ht. split; [done|]. unfold asked_are_shown. rewrite Hi, Hh.
    split; intros x Hx; by apply elem_of_nil in Hx. }
  clear Ht Hi Hh. revert p0 H H0.
  induction es as [|e es IH]; simpl; intros p0 H [Ht Ha].
  - by injection H as <-.
  - destruct (step e p0) as [p1|] eqn:E; [|discriminate].
    apply (IH p1 H). split.
    + by destruct (step_transcript e p0 p1 Ht E).
    + by apply (asked_are_shown_step e p0).
Qed.

Lemma asked_witness :
  shown (js "hi") (submitted (js "hi") (demo_page (js "hi"))).
Proof.
  destruct (asked_questions_are_on_display [UserClicksSubmit]
              (demo_page (js "hi")) (submitted (js "hi") (demo_page (js "hi"))))
    as (H & _); try reflexivity.
  apply (H (sent (js "hi"))). simpl. by left.
Defined.

(** ** Exceptions *)

Lemma answered_scroll_fields q o p :
  chatMain p <> None ->
  Forall holds_container (timers p) ->
  Forall holds_container (timers (answered q o p))
  /\ chatMain (answered q o p) = chatMain p
  /\ uncaught (answered q o p) = uncaught p.
Proof.
  intros Hc Ht. unfold answered. destruct (verdict o) as [err|a]; simpl.
  - split; [|done]. apply Forall_app. split; [done|]. by repeat constructor.
  - split; [|done]. apply Forall_app. split; [done|]. repeat constructor.
    unfold holds_container. simpl. by destruct (chatMain p).
Qed.

Lemma step_uncaught e p p' :
  e <> HostChangesChatMain None ->
  chatMain p <> None -> Forall holds_container (timers p) ->
  step e p = Some p' ->
  chatMain p' <> None /\ Forall holds_container (timers p')
  /\ uncaught p' = uncaught p.
Proof.
  intros He Hc Ht H. apply step_shape in H.
  assert (Hsub : forall q,
    chatMain (submitted q p) <> None
    /\ Forall holds_container (timers (submitted q p))
    /\ uncaught (submitted q p) = uncaught p).
  { intros q. simpl. split; [done|]. split; [|done].
    apply Forall_app. split; [done|]. repeat constructor.
    unfold holds_container. simpl. by destruct (chatMain p). }
  destruct e as [text m|key shift| |i o|i|dt|c].
  - destruct H as [_ ->]. by open_page p.
  - destruct H as [_ [->|[_ ->]]]; [done | apply Hsub].
  - destruct H as [_ [->|[_ ->]]]; [done | apply Hsub].
  - destruct H as (r & _ & ->).
    destruct (cleaned_fields
                (answered (asked r) o (set_inflight (delete i (inflight p)) p)))
      as (-> & _ & _ & -> & -> & _).
    destruct (answered_scroll_fields (asked r) o
                (set_inflight (delete i (inflight p)) p))
      as (H1 & -> & ->); [by open_page p | by open_page p |].
    split; [by open_page p|]. split; [done | by open_page p].
  - destruct H as (t & Hi & _ & ->). rewrite run_callback_run.
    assert (Hd : Forall holds_container (delete i (timers p))).
    { apply Forall_forall. intros x Hx. rewrite Forall_forall in Ht.
      apply Ht. by eapply list_elem_of_delete_inv. }
    assert (Ha : holds_container t).
    { rewrite Forall_forall in Ht. apply Ht. by eapply list_elem_of_lookup_2. }
    unfold holds_container in Ha.
    destruct (action t) as [el|[u|]]; [by open_page p| |done].
    destruct (chatMessages_scroll_to_end u (set_timers (delete i (timers p)) p))
      as (_ & -> & _ & _ & -> & Hm).
    split; [apply Hm; by open_page p|]. split; by open_page p.
  - subst p'. by open_page p.
  - subst p'. split; [|by open_page p].
    replace (chatMain (set_chatMain c p)) with c by (by open_page p).
    intros ->. done.
Qed.

(** X8. As long as the document has its [".chat-main"] container, no
    handler and no timer of the controller ever throws: starting with no
    timer pending, after any sequence of events in which the host does
    not remove the container, no uncaught exception has been added. *)
Theorem no_exception_while_container_exists (es : list event) (p0 p : page) :
  timers p0 = [] -> chatMain p0 <> None ->
  Forall (fun e => e <> HostChangesChatMain None) es ->
  steps es p0 = Some p ->
  uncaught p = uncaught p0.
Proof.
  intros Ht Hc.
  assert (H0 : Forall holds_container (timers p0)) by (by rewrite Ht).
  clear Ht. revert p0 Hc H0.
  induction es as [|e es IH]; simpl; intros p0 Hc Ht He H.
  - by injection H as <-.
  - destruct (step e p0) as [p1|] eqn:E; [|discriminate].
    apply Forall_cons in He as [He1 He2].
    destruct (step_uncaught e p0 p1 He1 Hc Ht E) as (Hc1 & Ht1 & <-).
    by apply IH.
Qed.

Lemma no_exception_witness :
  let o := ChatUI.Responded true (Some DNull) in
  let p := cleaned (answered (js "hi") o
                      (set_inflight [] (submitted (js "hi") (demo_page (js "hi"))))) in
  uncaught p = [].
Proof.
  intros o p.
  assert (H : steps [UserClicksSubmit; Settles 0 o] (demo_page (js "hi")) = Some p)
    by (vm_compute; reflexivity).
  apply (no_exception_while_container_exists
           [UserClicksSubmit; Settles 0 o] (demo_page (js "hi")) p).
  - reflexivity.
  - discriminate.
  - repeat constructor; discriminate.
  - exact H.
Defined.

(** ** The Enter key *)

(** X9. On every page reached from the initial one the Enter key without
    Shift does exactly what a click on the submit control does, including
    being ignored while a request is in flight.  Any other key, and Enter
    with Shift, is left to the input field: the handler changes nothing
    and asks nothing. *)
Theorem enter_submits_and_shift_enter_does_not
    (p0 : page) (es : list event) (p : page) :
  initial p0 -> steps es p0 = Some p ->
  step (UserKeyDown (js "Enter") false) p = step UserClicksSubmit p
  /\ (forall key shiftKey p',
        key <> js "Enter" \/ shiftKey = true ->
        step (UserKeyDown key shiftKey) p = Some p' -> p' = p)
  /\ (forall key, ChatUI.handleKeyDown key true p = (Normal None, p)).
Proof.
  intros Hi Hs.
  assert (Hinv : inv p) by (eapply inv_steps; [by apply inv_initial | done]).
  destruct Hinv as (_ & Hbusy & Hidle & _).
  split; [|split].
  - assert (E : input_disabled p = submit_disabled p).
    { destruct (inflight p) as [|r l] eqn:E.
      - destruct (Hidle eq_refl) as (-> & -> & _). done.
      - destruct Hbusy as ((-> & -> & _) & _); done. }
    simpl. rewrite E. destruct (submit_disabled p); [done|].
    by rewrite run_handleKeyDown.
  - intros key shiftKey p' Hk H. simpl in H.
    destruct (input_disabled p); [discriminate|]. injection H as <-.
    rewrite run_handleKeyDown.
    destruct Hk as [Hk| ->].
    + by rewrite bool_decide_eq_false_2.
    + by rewrite andb_false_r.
  - intros key. unfold ChatUI.handleKeyDown. by rewrite andb_false_r.
Qed.

Lemma enter_witness :
  step (UserKeyDown (js "Enter") false) (demo_page (js "hi"))
  = step UserClicksSubmit (demo_page (js "hi")).
Proof.
  destruct (enter_submits_and_shift_enter_does_not
              (demo_page (js "hi")) [] (demo_page (js "hi")))
    as (H & _).
  - repeat split; reflexivity.
  - reflexivity.
  - exact H.
Defined.

(** ** Removing the typing placeholder *)

Lemma remove_child_first el a b :
  el ∉ a -> remove_child el (a ++ el :: b) = a ++ b.
Proof.
  induction a as [|x a IH]; intros Hn; simpl.
  - by rewrite bool_decide_eq_true_2.
  - apply not_elem_of_cons in Hn as [Hx Ha].
    rewrite bool_decide_eq_false_2 by congruence. by rewrite IH.
Qed.

Lemma getElementById_first i a el b :
  Forall (fun x => id_attr x <> i) a -> id_attr el = i ->
  getElementById i (a ++ el :: b) = Some el.
Proof.
  intros Ha He. unfold getElementById.
  induction a as [|x a IH]; simpl.
  - by rewrite bool_decide_eq_true_2.
  - apply Forall_cons in Ha as [Hx Ha].
    rewrite bool_decide_eq_false_2 by done. by apply IH.
Qed.

Lemma remove_typing_first a el b :
  Forall (fun x => is_typing x = false) a -> is_typing el = true ->
  remove_typing (a ++ el :: b) = a ++ b.
Proof.
  intros Ha He. unfold remove_typing, is_typing in *.
  apply bool_decide_eq_true_1 in He.
  rewrite (getElementById_first _ a el b); [|
    eapply Forall_impl; [exact Ha|]; simpl; intros x Hx;
    by apply bool_decide_eq_false_1 in Hx | done].
  apply remove_child_first. intros Hin.
  rewrite Forall_forall in Ha. apply Ha in Hin.
  apply bool_decide_eq_false_1 in Hin. done.
Qed.

Lemma remove_typing_none l :
  Forall (fun x => is_typing x = false) l -> remove_typing l = l.
Proof.
  intros Hl. unfold remove_typing.
  destruct (getElementById _ l) as [el|] eqn:E; [|done].
  apply getElementById_Some in E as [Hin E].
  rewrite Forall_forall in Hl. apply Hl in Hin.
  unfold is_typing in Hin. apply bool_decide_eq_false_1 in Hin. done.
Qed.

Lemma TypingIndicator_remove_run p :
  TypingIndicator.remove p
  = (Normal tt, set_chatMessages (remove_typing (chatMessages p)) p).
Proof.
  unfold TypingIndicator.remove, remove_typing, bind, gets, modify, ret.
  destruct (getElementById _ _); by open_page p.
Qed.

(** X10. [TypingIndicator.remove] never throws and touches nothing but
    the message list.  It takes out the first typing placeholder and
    leaves every other entry in place and in order; without a placeholder
    it does nothing, so calling it again after the only placeholder is
    gone changes nothing; with several placeholders one call removes only
    the first. *)
Theorem typing_remove_takes_the_first_placeholder (p : page) :
  exists p',
    TypingIndicator.remove p = (Normal tt, p')
    /\ set_chatMessages (chatMessages p) p' = p
    /\ (forall a el b,
          chatMessages p = a ++ el :: b ->
          Forall (fun x => is_typing x = false) a -> is_typing el = true ->
          chatMessages p' = a ++ b
          /\ (Forall (fun x => is_typing x = false) b ->
              TypingIndicator.remove p' = (Normal tt, p')))
    /\ (Forall (fun x => is_typing x = false) (chatMessages p) -> p' = p).
Proof.
  exists (set_chatMessages (remove_typing (chatMessages p)) p).
  split; [apply TypingIndicator_remove_run|].
  split; [by open_page p|]. split.
  - intros a el b E Ha He.
    assert (Hm : chatMessages (set_chatMessages (remove_typing (chatMessages p)) p)
                 = a ++ b).
    { rewrite E, remove_typing_first by done. by open_page p. }
    split; [done|]. intros Hb.
    rewrite TypingIndicator_remove_run, Hm.
    rewrite remove_typing_none by (by apply Forall_app).
    rewrite <- Hm. by open_page p.
  - intros Hl. rewrite remove_typing_none by done. by open_page p.
Qed.

(** ** Escaping *)

Lemma literal_inj c d : literal c = literal d -> c = d.
Proof.
  unfold literal.
  destruct (N.eqb_spec c LF), (N.eqb_spec d LF); congruence.
Qed.

Lemma map_literal_inj s t : map literal s = map literal t -> s = t.
Proof.
  revert t. induction s as [|c s IH]; intros [|d t] H; try discriminate; [done|].
  simpl in H. injection H as Hc Hs. f_equal; [by apply literal_inj | by apply IH].
Qed.

Lemma escape_plain s :
  Forall (fun c => plain c = true) s ->
  replace_newlines (serialize_text s) = s.
Proof.
  unfold serialize_text. induction s as [|c s IH]; intros H; [done|].
  apply Forall_cons in H as [Hc Hs].
  simpl flat_map. rewrite replace_newlines_app, (IH Hs).
  unfold plain in Hc. rewrite negb_true_iff, !orb_false_iff in Hc.
  destruct Hc as ((((Hamp & Hnbsp) & Hlt) & Hgt) & Hlf).
  unfold escape_unit. rewrite Hamp, Hnbsp, Hlt, Hgt.
  unfold replace_newlines. simpl. by rewrite Hlf.
Qed.

(** X11. [escapeHtml] loses nothing: two contents with the same escaped
    form have the same text, so different texts are rendered differently.
    Text without [&], [<], [>], U+00A0 and newline is rendered as it is,
    and the escaped form of a concatenation is the concatenation of the
    escaped forms. *)
Theorem escapeHtml_is_injective (m1 m2 : ChatMessage.t) (p1 p2 : page) :
  (fst (ChatMessage.escapeHtml m1 p1) = fst (ChatMessage.escapeHtml m2 p2) ->
   to_text_content (ChatMessage.content m1)
   = to_text_content (ChatMessage.content m2))
  /\ (Forall (fun c => plain c = true)
        (to_text_content (ChatMessage.content m1)) ->
      fst (ChatMessage.escapeHtml m1 p1)
      = Normal (to_text_content (ChatMessage.content m1)))
  /\ (forall s t,
        replace_newlines (serialize_text (s ++ t))
        = replace_newlines (serialize_text s)
          ++ replace_newlines (serialize_text t)).
Proof.
  split; [|split].
  - intros H. apply map_literal_inj. rewrite <- !tokenize_escaped.
    assert (E : forall m p, fst (ChatMessage.escapeHtml m p)
      = Normal (replace_newlines
                  (serialize_text (to_text_content (ChatMessage.content m)))))
      by (intros m p; by open_page p).
    rewrite !E in H. by injection H as ->.
  - intros H. replace (fst (ChatMessage.escapeHtml m1 p1)) with
      (Normal (A:=jstring) (replace_newlines
         (serialize_text (to_text_content (ChatMessage.content m1)))))
      by (by open_page p1).
    by rewrite escape_plain.
  - intros s t. unfold serialize_text.
    by rewrite flat_map_app, replace_newlines_app.
Qed.

(** ** A whole exchange *)

Lemma count_zero_Forall (f : element -> bool) l :
  length (List.filter f l) = 0%nat -> Forall (fun x => f x = false) l.
Proof.
  induction l as [|x l IH]; simpl; [constructor|].
  destruct (f x) eqn:E; simpl; [discriminate|]. intros H. constructor; auto.
Qed.

Lemma steps_app es1 es2 p :
  steps (es1 ++ es2) p
  = match steps es1 p with
    | Some p' => steps es2 p'
    | None => None
    end.
Proof.
  revert p. induction es1 as [|e es1 IH]; simpl; intros p; [done|].
  destruct (step e p); [apply IH | done].
Qed.

Lemma typed_and_submitted text m p0 :
  input_disabled p0 = false -> submit_disabled p0 = false ->
  trim text <> [] ->
  steps [UserTypes text m; UserClicksSubmit] p0
  = Some (submitted (trim text)
            (set_input_height (Some m)
               (set_input_height None (set_input_value text p0)))).
Proof.
  intros Hi Hs Hq. simpl. rewrite Hi.
  replace (run_handler (ChatUI.autoResizeInput m) (set_input_value text p0))
    with (set_input_height (Some m)
            (set_input_height None (set_input_value text p0))) by done.
  replace (submit_disabled _) with (submit_disabled p0) by (by open_page p0).
  rewrite Hs, run_handleFormSubmit.
  replace (input_value _) with text by (by open_page p0).
  by rewrite bool_decide_eq_false_2.
Qed.

(** X12. A whole successful exchange.  From an idle page, typing a
    question that is not blank, submitting it and receiving a 2xx
    response with the answer ["X"] ends with exactly two entries added to
    the list, the user's trimmed question and after it the assistant's
    answer, with one history entry pairing the two; the input is empty,
    the controls are enabled again, no placeholder and no request are
    left, and nothing was logged or thrown. *)
Theorem successful_exchange
    (p0 : page) (text X : jstring) (m : N) (fields : gmap (list N) jsval) :
  initial p0 -> trim text <> [] ->
  fields !! js "answer" = Some (VString X) ->
  exists p,
    steps [UserTypes text m; UserClicksSubmit;
           Settles 0 (ChatUI.Responded true (Some (DObject fields)))] p0
    = Some p
    /\ chatMessages p
       = chatMessages p0
         ++ [message_element (next_uid p0) (VString (trim text)) (js "user");
             message_element (S (S (S (next_uid p0)))) (VString X) (js "ai")]
    /\ conversationHistory p
       = conversationHistory p0
         ++ [{| question := trim text; answer := VString X;
                timestamp := now p0 |}]
    /\ input_value p = [] /\ loading false p /\ inflight p = []
    /\ has_typing p = false
    /\ console p = console p0 /\ uncaught p = uncaught p0.
Proof.
  intros (Hfl & Hid & Hsd & Hty & Htm) Hq Hx.
  pose proof (typed_and_submitted text m p0 Hid Hsd Hq) as H2.
  set (p2 := submitted _ _) in H2.
  set (o := ChatUI.Responded true (Some (DObject fields))).
  exists (cleaned (answered (trim text) o (set_inflight [] p2))).
  assert (Hv : verdict o = inr (VString X)).
  { unfold o, verdict, get_field. by rewrite Hx. }
  assert (Hm : chatMessages (cleaned (answered (trim text) o (set_inflight [] p2)))
    = chatMessages p0
      ++ [message_element (next_uid p0) (VString (trim text)) (js "user");
          message_element (S (S (S (next_uid p0)))) (VString X) (js "ai")]).
  { unfold answered. rewrite Hv.
    replace (chatMessages _) with
      (remove_typing
         ((chatMessages p0
             ++ [message_element (next_uid p0) (VString (trim text)) (js "user")])
          ++ typing_element (S (S (next_uid p0)))
             :: [message_element (S (S (S (next_uid p0)))) (VString X) (js "ai")]))
      by (subst p2; open_page p0; simpl; by rewrite <- !app_assoc).
    rewrite remove_typing_first; [by rewrite <- app_assoc | | done].
    apply Forall_app. split; [by apply count_zero_Forall | by repeat constructor]. }
  split.
  { change [UserTypes text m; UserClicksSubmit; Settles 0 o]
      with ([UserTypes text m; UserClicksSubmit]
            ++ [Settles 0 o]).
    rewrite steps_app, H2. simpl. rewrite Hfl. simpl. rewrite run_settled. done. }
  split; [done|].
  split; [unfold answered; rewrite Hv; subst p2; by open_page p0|].
  split; [unfold answered; rewrite Hv; subst p2; by open_page p0|].
  split; [apply cleaned_loading|].
  split; [unfold answered; rewrite Hv; subst p2; by open_page p0|].
  split.
  { destruct (has_typing _) eqn:Hh; [|done].
    apply has_typing_count in Hh. unfold count in Hh. rewrite Hm in Hh.
    rewrite List.filter_app in Hh. unfold count in Hty.
    rewrite length_app, Hty in Hh. done. }
  split; unfold answered; rewrite Hv; subst p2; by open_page p0.
Qed.

Lemma successful_exchange_witness :
  exists p,
    steps [UserTypes (js " 2+2? ") 40; UserClicksSubmit;
           Settles 0 (ChatUI.Responded true
                        (Some (DObject {[ js "answer" := VString (js "4") ]})))]
      (demo_page []) = Some p
    /\ length (chatMessages p) = 2%nat.
Proof.
  destruct (successful_exchange (demo_page []) (js " 2+2? ") (js "4") 40
              {[ js "answer" := VString (js "4") ]})
    as (p & H1 & H2 & _).
  - repeat split; reflexivity.
  - vm_compute. discriminate.
  - vm_compute. reflexivity.
  - exists p. split; [exact H1|]. rewrite H2. reflexivity.
Defined.

Lemma notice_expires p l u t0 d :
  timers p = [t0; {| due := d; action := RemoveElement (notice_element u) |}] ->
  chatMessages p = l ++ [notice_element u] ->
  notice_element u ∉ l -> d <= now p + 5000 ->
  steps [TimePasses 5000; TimerFires 1] p
  = Some (set_chatMessages l (set_timers [t0] (set_now (now p + 5000) p))).
Proof.
  intros Ht Hm Hn Hd. open_page p. simpl in *. subst tms msgs. simpl.
  destruct (N.leb_spec d (clock + 5000)); [|lia].
  unfold run_handler, run_callback, modify. simpl.
  change (l ++ [notice_element u]) with (l ++ notice_element u :: []).
  rewrite remove_child_first by done. by rewrite app_nil_r.
Qed.

(** X13. A whole failed exchange.  From an idle page, typing a question,
    submitting it and having the exchange fail leaves the user's message
    followed by the connection notice; the question is not put back into
    the input, the controls are enabled again, the history is untouched
    and the error is on the console.  Once 5000 ms have passed the
    notice's timer fires and the notice is gone, the user's message
    staying as the only addition. *)
Theorem failed_exchange
    (p0 : page) (text : jstring) (m : N) (o : ChatUI.outcome) :
  initial p0 -> trim text <> [] -> failure o ->
  notice_element (S (S (S (next_uid p0)))) ∉ chatMessages p0 ->
  exists e p p',
    verdict o = inl e
    /\ steps [UserTypes text m; UserClicksSubmit; Settles 0 o] p0 = Some p
    /\ chatMessages p
       = chatMessages p0
         ++ [message_element (next_uid p0) (VString (trim text)) (js "user");
             notice_element (S (S (S (next_uid p0))))]
    /\ input_value p = [] /\ loading false p /\ inflight p = []
    /\ has_typing p = false
    /\ conversationHistory p = conversationHistory p0
    /\ console p = console p0 ++ [e]
    /\ steps [TimePasses 5000; TimerFires 1] p = Some p'
    /\ chatMessages p'
       = chatMessages p0
         ++ [message_element (next_uid p0) (VString (trim text)) (js "user")]
    /\ uncaught p' = uncaught p0.
Proof.
  intros (Hfl & Hid & Hsd & Hty & Htm) Hq Hf Hfresh.
  destruct (failure_verdict o Hf) as [e Hv]. exists e.
  pose proof (typed_and_submitted text m p0 Hid Hsd Hq) as H2.
  set (p2 := submitted _ _) in H2.
  set (user := message_element (next_uid p0) (VString (trim text)) (js "user")).
  set (notice := notice_element (S (S (S (next_uid p0))))).
  assert (Hp : exists p,
    p = cleaned (answered (trim text) o (set_inflight [] p2))
    /\ chatMessages p = (chatMessages p0 ++ [user]) ++ [notice]
    /\ timers p = [scroll_timer p0;
                   {| due := now p0 + 5000; action := RemoveElement notice |}]
    /\ now p = now p0 /\ input_value p = [] /\ inflight p = []
    /\ conversationHistory p = conversationHistory p0
    /\ console p = console p0 ++ [e] /\ uncaught p = uncaught p0).
  { eexists. split; [reflexivity|]. unfold answered. rewrite Hv. split.
    - replace (chatMessages _) with
        (remove_typing
           ((chatMessages p0 ++ [user])
            ++ typing_element (S (S (next_uid p0))) :: [notice]))
        by (subst p2; open_page p0; simpl; by rewrite <- !app_assoc).
      rewrite remove_typing_first; [done| |done].
      apply Forall_app. split; [by apply count_zero_Forall | by repeat constructor].
    - subst p2. open_page p0. simpl in *. rewrite Htm. done. }
  destruct Hp as (p & Ep & Hm & Htp & Hnow & Hiv & Hin & Hh & Hc & Hu).
  exists p, (set_chatMessages (chatMessages p0 ++ [user])
               (set_timers [scroll_timer p0] (set_now (now p + 5000) p))).
  split; [done|]. split.
  { change [UserTypes text m; UserClicksSubmit; Settles 0 o]
      with ([UserTypes text m; UserClicksSubmit] ++ [Settles 0 o]).
    rewrite steps_app, H2. simpl. rewrite Hfl. simpl. rewrite run_settled.
    by rewrite Ep. }
  split; [by rewrite Hm, <- app_assoc|].
  split; [done|].
  split; [rewrite Ep; apply cleaned_loading|].
  split; [done|].
  split.
  { destruct (has_typing _) eqn:Hh'; [|done].
    apply has_typing_count in Hh'. unfold count in Hh'. rewrite Hm in Hh'.
    rewrite !List.filter_app in Hh'. unfold count in Hty.
    rewrite !length_app, Hty in Hh'. done. }
  split; [done|]. split; [done|].
  split.
  { apply (notice_expires p (chatMessages p0 ++ [user])
             (S (S (S (next_uid p0)))) (scroll_timer p0) (now p0 + 5000));
      [done|done| |lia].
    intros Hn. apply elem_of_app in Hn as [Hn|Hn]; [done|].
    apply list_elem_of_singleton in Hn. discriminate. }
  split; [by open_page p|].
  rewrite <- Hu. by open_page p.
Qed.

Lemma failed_exchange_witness :
  exists e p p',
    verdict (ChatUI.Rejected (js "offline")) = inl e
    /\ steps [UserTypes (js "hello") 40; UserClicksSubmit;
              Settles 0 (ChatUI.Rejected (js "offline"))] (demo_page [])
       = Some p
    /\ steps [TimePasses 5000; TimerFires 1] p = Some p'
    /\ length (chatMessages p') = 1%nat.
Proof.
  destruct (failed_exchange (demo_page []) (js "hello") 40
              (ChatUI.Rejected (js "offline")))
    as (e & p & p' & H1 & H2 & _ & _ & _ & _ & _ & _ & _ & H3 & H4 & _).
  - repeat split; reflexivity.
  - vm_compute. discriminate.
  - exact I.
  - apply not_elem_of_nil.
  - exists e, p, p'. repeat split; try assumption. rewrite H4. reflexivity.
Defined.

(** ** Error notices *)

Lemma display_run (em : ErrorMessage.t) p :
  ErrorMessage.display em p
  = (Normal tt,
     set_timers
       (timers p
          ++ [{| due := now p + ErrorMessage.duration em;
                 action := RemoveElement
                   {| uid := next_uid p; className := js "error-message";
                      id_attr := [];
                      body := TextContent (ErrorMessage.message em) |} |}])
       (set_chatMessages
          (chatMessages p
             ++ [{| uid := next_uid p; className := js "error-message";
                    id_attr := [];
                    body := TextContent (ErrorMessage.message em) |}])
          (set_next_uid (S (next_uid p)) p))).
Proof. by open_page p. Qed.

(** X14. Error notices are independent of one another.  Displaying two
    messages one after the other never throws and appends two entries,
    each carrying its message as plain text and each with its own timer
    due 5000 ms after it was displayed; when either timer fires it
    removes its own notice and leaves the other one, also when the two
    messages are the same. *)
Theorem notices_expire_independently (m1 m2 : jstring) (p : page) :
  let n1 := {| uid := next_uid p; className := js "error-message";
               id_attr := []; body := TextContent m1 |} in
  let n2 := {| uid := S (next_uid p); className := js "error-message";
               id_attr := []; body := TextContent m2 |} in
  n1 ∉ chatMessages p -> n2 ∉ chatMessages p ->
  exists p2,
    (_ <- ErrorMessage.display (ErrorMessage.new m1) ;;
     ErrorMessage.display (ErrorMessage.new m2)) p = (Normal tt, p2)
    /\ chatMessages p2 = chatMessages p ++ [n1; n2]
    /\ timers p2
       = timers p ++ [{| due := now p + 5000; action := RemoveElement n1 |};
                      {| due := now p + 5000; action := RemoveElement n2 |}]
    /\ chatMessages (run_handler (run_callback (RemoveElement n1)) p2)
       = chatMessages p ++ [n2]
    /\ chatMessages (run_handler (run_callback (RemoveElement n2)) p2)
       = chatMessages p ++ [n1].
Proof.
  intros n1 n2 H1 H2.
  eexists. split.
  { unfold bind. rewrite display_run. cbn [fst snd]. rewrite display_run.
    reflexivity. }
  assert (Hm : forall x, chatMessages
    (set_timers x
       (set_chatMessages
          ((chatMessages p ++ [n1]) ++ [n2])
          (set_next_uid (S (S (next_uid p)))
             (set_timers (timers p ++ [{| due := now p + 5000;
                                          action := RemoveElement n1 |}])
                (set_chatMessages (chatMessages p ++ [n1])
                   (set_next_uid (S (next_uid p)) p))))))
    = chatMessages p ++ [n1; n2]).
  { intros x. open_page p. simpl. by rewrite <- app_assoc. }
  split; [open_page p; simpl; by rewrite <- app_assoc|].
  split; [open_page p; simpl; by rewrite <- app_assoc|].
  rewrite !run_callback_run. split.
  - open_page p. simpl in *.
    rewrite <- app_assoc. simpl.
    change (msgs ++ [n1; n2]) with (msgs ++ n1 :: [n2]).
    by rewrite remove_child_first.
  - open_page p. simpl in *.
    change ((msgs ++ [n1]) ++ [n2]) with ((msgs ++ [n1]) ++ n2 :: []).
    rewrite remove_child_first; [by rewrite app_nil_r|].
    intros Hin. apply elem_of_app in Hin as [Hin|Hin]; [done|].
    apply list_elem_of_singleton in Hin. injection Hin as Hu _. lia.
Qed.

Lemma notices_witness :
  exists p2,
    (_ <- ErrorMessage.display (ErrorMessage.new (js "down")) ;;
     ErrorMessage.display (ErrorMessage.new (js "down"))) (demo_page [])
    = (Normal tt, p2)
    /\ length (chatMessages p2) = 2%nat.
Proof.
  destruct (notices_expire_independently (js "down") (js "down") (demo_page []))
    as (p2 & H1 & H2 & _).
  - apply not_elem_of_nil.
  - apply not_elem_of_nil.
  - exists p2. split; [exact H1|]. rewrite H2. reflexivity.
Defined.

(** ** The busy state *)

(** X15. [setLoadingState] is safe to call redundantly and the last call
    wins: after two calls the page is what the second call alone would
    have made it, so setting the same state twice is setting it once and
    setting it back undoes the first call's effect on the controls. *)
Theorem setLoadingState_last_call_wins (b1 b2 : bool) (p : page) :
  (_ <- ChatUI.setLoadingState b1 ;; ChatUI.setLoadingState b2) p
  = ChatUI.setLoadingState b2 p.
Proof. open_page p. destruct b1, b2; reflexivity. Qed.

(** X16. The busy state is a flag, not a count, and [handleFormSubmit]
    does not look at it.  If the handler is entered while a request is in
    flight, with a question placed in the input by other means, it sends
    a second request and adds a second placeholder; when the first
    exchange then settles, the controls are enabled and one placeholder
    is removed although the second request is still in flight and its
    placeholder still on display. *)
Theorem overlapping_exchanges_share_the_busy_flag
    (p : page) (r : request) (o : ChatUI.outcome) :
  inflight p = [r] -> count is_typing p = 1%nat ->
  trim (input_value p) <> [] ->
  exists q p1 p2,
    ChatUI.handleFormSubmit p = (Normal (Some q), p1)
    /\ inflight p1 = [r; sent q]
    /\ count is_typing p1 = 2%nat
    /\ step (Settles 0 o) p1 = Some p2
    /\ loading false p2
    /\ inflight p2 = [sent q]
    /\ has_typing p2 = true.
Proof.
  intros Hi Ht Hq.
  exists (trim (input_value p)), (submitted (trim (input_value p)) p).
  assert (H1 : count is_typing (submitted (trim (input_value p)) p) = 2%nat).
  { unfold count in *. simpl. rewrite List.filter_app, length_app, Ht. done. }
  destruct (answered_fields (asked r) o
              (set_inflight [sent (trim (input_value p))]
                 (submitted (trim (input_value p)) p)))
    as (el & t & Hm & Hel & _ & _ & Hin & _).
  eexists. split; [by apply handleFormSubmit_sends|].
  split; [simpl; by rewrite Hi|]. split; [done|].
  split.
  { simpl. rewrite Hi. simpl. rewrite run_settled. reflexivity. }
  split; [apply cleaned_loading|].
  destruct (cleaned_fields
              (answered (asked r) o
                 (set_inflight [sent (trim (input_value p))]
                    (submitted (trim (input_value p)) p))))
    as (_ & _ & Ei & _ & _ & Em).
  split; [rewrite Ei, Hin; by open_page p|].
  apply has_typing_count. unfold count in *.
  rewrite Em, remove_typing_count, Hm, count_app_one, Hel.
  replace (chatMessages (set_inflight _ _))
    with (chatMessages (submitted (trim (input_value p)) p)) by (by open_page p).
  rewrite H1. simpl. lia.
Qed.

Lemma overlapping_witness :
  exists q p1 p2,
    ChatUI.handleFormSubmit
      (set_input_value (js "again") (submitted (js "hi") (demo_page (js "hi"))))
    = (Normal (Some q), p1)
    /\ step (Settles 0 (ChatUI.Rejected [])) p1 = Some p2
    /\ loading false p2
    /\ has_typing p2 = true.
Proof.
  destruct (overlapping_exchanges_share_the_busy_flag
              (set_input_value (js "again")
                 (submitted (js "hi") (demo_page (js "hi"))))
              (sent (js "hi")) (ChatUI.Rejected []))
    as (q & p1 & p2 & H1 & _ & _ & H2 & H3 & _ & H4).
  - reflexivity.
  - vm_compute. reflexivity.
  - vm_compute. discriminate.
  - exists q, p1, p2. split; [exact H1|]. split; [exact H2|].
    split; [exact H3 | exact H4].
Defined.

(** ** A missing scroll container *)

(** X17. When the document has no [".chat-main"], rendering a message
    still succeeds: [addMessage] appends the entry and schedules the
    scroll without throwing, so an exchange whose answer is a string is
    completed as usual, with the answer rendered and logged and no
    connection notice.  The
    exception comes only when the scroll timer fires; it is raised
    outside the [try] block of the handler, so it is reported as uncaught
    and changes nothing on the page. *)
Theorem missing_container_fails_outside_the_handler
    (q X : jstring) (data : json_data) (p : page) :
  chatMain p = None -> get_field data (js "answer") = inr (VString X) ->
  exists p',
    ChatUI.handleFormSubmit_settled q (ChatUI.Responded true (Some data)) p
    = (Normal tt, p')
    /\ count is_assistant p' = S (count is_assistant p)
    /\ count is_notice p' = count is_notice p
    /\ console p' = console p
    /\ uncaught p' = uncaught p
    /\ conversationHistory p'
       = conversationHistory p
         ++ [{| question := q; answer := VString X; timestamp := now p |}]
    /\ timers p' = timers p ++ [{| due := now p + 100; action := ScrollDown None |}]
    /\ (forall t, now p + 100 <= t ->
          step (TimerFires (length (timers p))) (set_now t p')
          = Some (set_uncaught (uncaught p ++ [TypeError])
                    (set_timers (timers p) (set_now t p')))).
Proof.
  intros Hc Ha. set (a := VString X) in *. exists (cleaned (rendered q a p)).
  destruct (rendered_counts q a p) as [H1 H2].
  split.
  { rewrite handleFormSubmit_settled_run. unfold answered, verdict.
    by rewrite Ha. }
  split; [done|]. split; [done|].
  split; [by open_page p|]. split; [by open_page p|]. split; [by open_page p|].
  assert (Ht : timers (cleaned (rendered q a p))
               = timers p ++ [{| due := now p + 100; action := ScrollDown None |}]).
  { open_page p. simpl in *. by subst cmain. }
  split; [done|].
  intros t Hle. unfold step.
  replace (timers (set_now t (cleaned (rendered q a p))))
    with (timers p ++ [{| due := now p + 100; action := ScrollDown None |}])
    by (rewrite <- Ht; by open_page p).
  rewrite lookup_app_r, Nat.sub_diag by lia. cbn [lookup list_lookup due action].
  replace (now (set_now t (cleaned (rendered q a p)))) with t by (by open_page p).
  destruct (N.leb_spec (now p + 100) t); [|lia].
  rewrite run_callback_run. f_equal.
  replace (delete (length (timers p))
             (timers p ++ [{| due := now p + 100; action := ScrollDown None |}]))
    with (timers p).
  - by open_page p.
  - clear. induction (timers p) as [|x l IH]; [done|]. simpl. by rewrite <- IH.
Qed.

Lemma missing_container_witness :
  exists p',
    ChatUI.handleFormSubmit_settled (js "hi")
      (ChatUI.Responded true
         (Some (DObject {[ js "answer" := VString (js "X") ]})))
      (set_chatMain None (submitted (js "hi") (demo_page (js "hi"))))
    = (Normal tt, p')
    /\ console p' = [].
Proof.
  destruct (missing_container_fails_outside_the_handler (js "hi") (js "X")
              (DObject {[ js "answer" := VString (js "X") ]})
              (set_chatMain None (submitted (js "hi") (demo_page (js "hi")))))
    as (p' & H1 & _ & _ & H2 & _).
  - reflexivity.
  - vm_compute. reflexivity.
  - exists p'. split; [exact H1 | exact H2].
Defined.

(** ** What the controller puts on display *)

Lemma remove_child_subset el x l : x ∈ remove_child el l -> x ∈ l.
Proof.
  induction l as [|y l IH]; simpl; [done|].
  case_bool_decide as Hy.
  - intros Hx. by right.
  - intros Hx. apply elem_of_cons in Hx as [->|Hx]; [by left | right; auto].
Qed.

Lemma remove_typing_subset x l : x ∈ remove_typing l -> x ∈ l.
Proof.
  unfold remove_typing. destruct (getElementById _ l); [|done].
  apply remove_child_subset.
Qed.

Lemma step_entries e p p' el :
  step e p = Some p' -> el ∈ chatMessages p' ->
  el ∈ chatMessages p \/ created el.
Proof.
  intros H Hin. apply step_shape in H.
  assert (Hsub : forall q, el ∈ chatMessages (submitted q p) ->
                           el ∈ chatMessages p \/ created el).
  { intros q Hq. simpl in Hq. apply elem_of_app in Hq as [Hq|Hq]; [by left|].
    right. apply elem_of_cons in Hq as [->|Hq].
    - left. eauto.
    - apply list_elem_of_singleton in Hq as ->. right. left. eauto. }
  destruct e as [text m|key shift| |i o|i|dt|c].
  - destruct H as [_ ->]. left. revert Hin. by open_page p.
  - destruct H as [_ [->|[_ ->]]]; [by left | by eapply Hsub].
  - destruct H as [_ [->|[_ ->]]]; [by left | by eapply Hsub].
  - destruct H as (r & _ & ->).
    destruct (cleaned_fields
                (answered (asked r) o (set_inflight (delete i (inflight p)) p)))
      as (_ & _ & _ & _ & _ & E).
    rewrite E in Hin. apply remove_typing_subset in Hin.
    unfold answered in Hin. destruct (verdict o) as [err|a]; simpl in Hin;
      apply elem_of_app in Hin as [Hin|Hin]; try (by left);
      apply list_elem_of_singleton in Hin as ->; right.
    + right. right. right. eauto.
    + right. right. left. eauto.
  - destruct H as (t & _ & _ & ->). rewrite run_callback_run in Hin.
    left. destruct (action t) as [x|[u|]].
    + replace (chatMessages _) with (remove_child x (chatMessages p)) in Hin
        by (by open_page p).
      by apply remove_child_subset in Hin.
    + destruct (chatMessages_scroll_to_end u (set_timers (delete i (timers p)) p))
        as (E & _). rewrite E in Hin. revert Hin. by open_page p.
    + revert Hin. by open_page p.
  - subst p'. left. revert Hin. by open_page p.
  - subst p'. left. revert Hin. by open_page p.
Qed.

(** X18. The controller puts four kinds of entries on display and no
    other: after any sequence of events every entry of the message list
    was either there before or is a message of the user labelled
    ["You"], the typing placeholder, a message of the assistant labelled
    ["AI CHAT BOT"], or the fixed connection notice.  In particular no
    text received from the backend or typed by the user becomes an entry
    except escaped inside a message. *)
Theorem entries_are_of_four_kinds (es : list event) (p0 p : page) (el : element) :
  steps es p0 = Some p -> el ∈ chatMessages p ->
  el ∈ chatMessages p0
  \/ (exists u q,
        el = message_element u (VString q) (js "user")
        /\ body el = InnerHTML (ChatMessage.template (js "You")
                       (replace_newlines (serialize_text q))))
  \/ (exists u, el = typing_element u)
  \/ (exists u a,
        el = message_element u a (js "ai")
        /\ body el = InnerHTML (ChatMessage.template (js "AI CHAT BOT")
                       (replace_newlines (serialize_text (to_text_content a)))))
  \/ (exists u, el = notice_element u).
Proof.
  intros H Hin.
  assert (Hc : el ∈ chatMessages p0 \/ created el).
  { revert p0 H. induction es as [|e es IH]; simpl; intros p0 H.
    - injection H as <-. by left.
    - destruct (step e p0) as [p1|] eqn:E; [|discriminate].
      destruct (IH p1 H) as [H1|H1]; [|by right].
      by apply (step_entries e p0 p1). }
  destruct Hc as [Hc|[(u & q & ->)|[(u & ->)|[(u & a & ->)|(u & ->)]]]].
  - by left.
  - right. left. exists u, q. split; reflexivity.
  - right. right. left. eauto.
  - right. right. right. left. exists u, a. split; reflexivity.
  - right. right. right. right. eauto.
Qed.

Lemma entries_witness :
  typing_element 3 ∈ chatMessages (demo_page (js "hi"))
  \/ (exists u q,
        typing_element 3 = message_element u (VString q) (js "user")
        /\ body (typing_element 3)
           = InnerHTML (ChatMessage.template (js "You")
                          (replace_newlines (serialize_text q))))
  \/ (exists u, typing_element 3 = typing_element u)
  \/ (exists u a,
        typing_element 3 = message_element u a (js "ai")
        /\ body (typing_element 3)
           = InnerHTML (ChatMessage.template (js "AI CHAT BOT")
                          (replace_newlines (serialize_text (to_text_content a)))))
  \/ (exists u, typing_element 3 = notice_element u).
Proof.
  apply (entries_are_of_four_kinds [UserClicksSubmit] (demo_page (js "hi"))
           (submitted (js "hi") (demo_page (js "hi")))).
  - reflexivity.
  - simpl. right. left.
Defined.
